(** * Preemption protocol of HotSpot continuations

    A shallow embedding of [src/hotspot/share/runtime/continuation.cpp]:
    the mount bookkeeping ([get_continuation_entry_for_continuation],
    [is_continuation_mounted], [pin], [unpin]), the safety predicates
    ([is_safe_pc_to_preempt], [is_safe_vthread_to_preempt],
    [is_safe_to_preempt]) and the orchestrator [try_preempt] together
    with the scoped object [JvmtiUnmountBeginMark].

    Conventions of the embedding.
    - Pointers and oops are natural numbers, [0] being [nullptr].  Reading
      a field through a null or ill-typed reference has no defined result
      in C++; the embedding returns [None] there, and [Some v] otherwise.
    - The chain of [ContinuationEntry] records hanging off a thread
      ([last_continuation()], then [parent()] until [nullptr]) is a list,
      innermost entry first.
    - [assert] is compiled away in product builds; the embedding is that
      of a product build.  [log_trace] has no effect on the results.
    - [INCLUDE_JVMTI] is a build switch and stays a parameter.
    - Functions of other compilation units are parameters (records
      [CodeClassifier] and [Runtime]); every call of a [Runtime] function
      is recorded in a trace so that "was called" can be stated. *)

From Stdlib Require Import ZArith NArith List Bool String Sorted Lia.
From stdpp Require Import base option list gmap.
Import ListNotations.

Local Open Scope Z_scope.

(** ** Heap objects *)

Definition address : Type := N.
Definition oop : Type := N.
Definition nullptr : N := 0%N.

(** The fields of a [jdk.internal.vm.Continuation] read by this file. *)
Record ContinuationObj : Type := mkContinuationObj {
  done_field : bool;
  preempted_field : bool;
  scope_field : oop
}.

(** The fields of a thread object read through [java_lang_VirtualThread].
    [target->vthread()] may hold the carrier's own thread object, hence
    the class test [is_virtual]. *)
Record ThreadObj : Type := mkThreadObj {
  is_virtual : bool;
  state_field : Z;
  preemption_disabled_field : bool;
  continuation_field : oop
}.

Inductive HeapObj : Type :=
| ContinuationO (c : ContinuationObj)
| ThreadO (t : ThreadObj).

Definition load (h : gmap N HeapObj) (p : oop) : option HeapObj :=
  if (p =? nullptr)%N then None else h !! p.

Definition load_continuation (h : gmap N HeapObj) (p : oop) : option ContinuationObj :=
  match load h p with
  | Some (ContinuationO c) => Some c
  | _ => None
  end.

Definition load_thread (h : gmap N HeapObj) (p : oop) : option ThreadObj :=
  match load h p with
  | Some (ThreadO t) => Some t
  | _ => None
  end.

Module jdk_internal_vm_Continuation.

Definition done (h : gmap N HeapObj) (cont : oop) : option bool :=
  done_field <$> load_continuation h cont.

Definition is_preempted (h : gmap N HeapObj) (cont : oop) : option bool :=
  preempted_field <$> load_continuation h cont.

Definition scope (h : gmap N HeapObj) (cont : oop) : option oop :=
  scope_field <$> load_continuation h cont.

End jdk_internal_vm_Continuation.

Module java_lang_VirtualThread.

Definition state (h : gmap N HeapObj) (vthread : oop) : option Z :=
  state_field <$> load_thread h vthread.

(** A class test: false for [nullptr] and for objects of other classes. *)
Definition is_instance (h : gmap N HeapObj) (vthread : oop) : bool :=
  match load_thread h vthread with
  | Some t => is_virtual t
  | None => false
  end.

Definition is_preemption_disabled (h : gmap N HeapObj) (vthread : oop) : option bool :=
  preemption_disabled_field <$> load_thread h vthread.

Definition continuation (h : gmap N HeapObj) (vthread : oop) : option oop :=
  continuation_field <$> load_thread h vthread.

End java_lang_VirtualThread.

(** ** Threads and continuation entries *)

Record ContinuationEntry : Type := mkContinuationEntry {
  entry_address : address;
  cont_oop : oop;
  pin_count : Z;
  entry_sp : address;
  entry_pc : address
}.

Record JavaThread : Type := mkJavaThread {
  last_continuation : list ContinuationEntry;
  preempting : bool;
  has_last_Java_frame : bool;
  last_Java_sp : address;
  last_Java_pc : address;
  has_pending_exception : bool;
  vthread : oop;
  threadObj : oop;
  is_in_VTMS_transition : bool;
  is_suspended : bool;
  is_at_poll_safepoint : bool;
  stack_base : address;
  stack_end : address
}.

Definition set_preempting (b : bool) (t : JavaThread) : JavaThread :=
  mkJavaThread (last_continuation t) b (has_last_Java_frame t)
    (last_Java_sp t) (last_Java_pc t) (has_pending_exception t) (vthread t)
    (threadObj t) (is_in_VTMS_transition t) (is_suspended t)
    (is_at_poll_safepoint t) (stack_base t) (stack_end t).

Definition set_last_continuation (l : list ContinuationEntry) (t : JavaThread) : JavaThread :=
  mkJavaThread l (preempting t) (has_last_Java_frame t)
    (last_Java_sp t) (last_Java_pc t) (has_pending_exception t) (vthread t)
    (threadObj t) (is_in_VTMS_transition t) (is_suspended t)
    (is_at_poll_safepoint t) (stack_base t) (stack_end t).

Definition set_has_pending_exception (b : bool) (t : JavaThread) : JavaThread :=
  mkJavaThread (last_continuation t) (preempting t) (has_last_Java_frame t)
    (last_Java_sp t) (last_Java_pc t) b (vthread t)
    (threadObj t) (is_in_VTMS_transition t) (is_suspended t)
    (is_at_poll_safepoint t) (stack_base t) (stack_end t).

(** [Thread::is_in_full_stack], used by the assertion of [is_on_stack]. *)
Definition is_in_full_stack (t : JavaThread) (adr : address) : bool :=
  ((stack_end t <=? adr) && (adr <? stack_base t))%N.

(** What the target thread, the Java heap and the statics of
    [java_lang_VirtualThread] look like at one instant. *)
Record World : Type := mkWorld {
  target : JavaThread;
  heap : gmap N HeapObj;
  notify_jvmti_events : bool;
  vthread_scope : oop
}.

Definition with_target (t : JavaThread) (w : World) : World :=
  mkWorld t (heap w) (notify_jvmti_events w) (vthread_scope w).

(** ** Collaborators *)

Inductive CodeletKind : Type :=
| codelet_bytecode
| codelet_safepoint_entry
| codelet_other.

Definition CodeletKind_eqb (a b : CodeletKind) : bool :=
  match a, b with
  | codelet_bytecode, codelet_bytecode => true
  | codelet_safepoint_entry, codelet_safepoint_entry => true
  | codelet_other, codelet_other => true
  | _, _ => false
  end.

Record InterpreterCodelet : Type := mkInterpreterCodelet {
  bytecode : Z;
  kind : CodeletKind
}.

Record CodeBlob : Type := mkCodeBlob {
  is_safepoint_stub : bool
}.

(** [Interpreter::contains], [Interpreter::codelet_containing],
    [Bytecodes::is_return] and [CodeCache::find_blob]. *)
Record CodeClassifier : Type := mkCodeClassifier {
  Interpreter_contains : address -> bool;
  Interpreter_codelet_containing : address -> option InterpreterCodelet;
  Bytecodes_is_return : Z -> bool;
  CodeCache_find_blob : address -> option CodeBlob
}.

(** The freeze engine behind [freeze_preempt_entry()] and the JVMTI
    entry points; each may change the target and the heap at will. *)
Record Runtime : Type := mkRuntime {
  freeze_preempt_entry : address -> World -> Z * World;
  start_VTMS_transition : oop -> bool -> World -> bool * World;
  finish_VTMS_transition : oop -> bool -> World -> World;
  rebind_to_jvmti_thread_state_of : oop -> World -> World
}.

Inductive Event : Type :=
| Ev_start_VTMS_transition (succeeded : bool)
| Ev_freeze_preempt_entry (sp : address) (res : Z)
| Ev_finish_VTMS_transition
| Ev_rebind_to_jvmti_thread_state_of.

(** The state [try_preempt] runs in: the world, the file-local
    [fail_counter] and the calls made so far. *)
Record VM : Type := mkVM {
  world : World;
  fail_counter : Z;
  trace : list Event
}.

Definition uint64_modulus : Z := 2 ^ 64.

Definition uint64_incr (c : Z) : Z := (c + 1) mod uint64_modulus.

(** The members of the scoped object [JvmtiUnmountBeginMark]
    ([_target] is the target of the world). *)
Record JvmtiUnmountBeginMark : Type := mkJvmtiUnmountBeginMark {
  _preempt_result : Z;
  _do_VTMS_transition : bool;
  _transition_succeded : bool;
  _is_vthread : bool
}.

(** The exception a JNI entry point leaves pending on return. *)
Inductive Exception : Type :=
| IllegalStateException (msg : string).

(** The members of a [frame] read by this file. *)
Module frame.

Record t : Type := mk {
  sp : address;
  is_heap_frame : bool;
  is_interpreted_frame : bool
}.

End frame.

(** A [ContinuationEntry] together with its [_parent_cont_fastpath]
    member, the only member [notify_deopt] writes. *)
Record FastpathEntry : Type := mkFastpathEntry {
  fp_entry : ContinuationEntry;
  parent_cont_fastpath : address
}.

Definition set_parent_cont_fastpath (sp : address) (e : FastpathEntry) : FastpathEntry :=
  mkFastpathEntry (fp_entry e) sp.

Definition set_pin_count (n : Z) (ce : ContinuationEntry) : ContinuationEntry :=
  mkContinuationEntry (entry_address ce) (cont_oop ce) n (entry_sp ce) (entry_pc ce).

Section Preemption.

(** Build switch [INCLUDE_JVMTI]. *)
Variable INCLUDE_JVMTI : bool.

(** The enumerators of [freeze_result] (continuation.hpp) and
    [java_lang_VirtualThread::RUNNING] (javaClasses.hpp); the headers
    are not among the sources, so the values stay abstract. *)
Variables freeze_ok freeze_pinned_native freeze_not_mounted : Z.
Variable RUNNING : Z.

Variable cc : CodeClassifier.
Variable rt : Runtime.

(** The "fixed maximum" of the pin count. *)
Variable PIN_COUNT_MAX : Z.

(** ** 4.1 Mount tracking *)

(** Modelled from the spec: [ContinuationEntry::pin], declared in
    continuationEntry.hpp, which is not among the sources.  "pin() fails
    if the count would exceed a fixed maximum", otherwise it increments
    the entry's pin count. *)
Definition ContinuationEntry_pin (ce : ContinuationEntry) : bool * ContinuationEntry :=
  if PIN_COUNT_MAX <? pin_count ce + 1 then (false, ce)
  else (true, set_pin_count (pin_count ce + 1) ce).

(** Modelled from the spec: [ContinuationEntry::unpin], declared in
    continuationEntry.hpp, which is not among the sources.  "unpin()
    fails (returns false) if the count is already zero", otherwise it
    decrements the entry's pin count. *)
Definition ContinuationEntry_unpin (ce : ContinuationEntry) : bool * ContinuationEntry :=
  if pin_count ce =? 0 then (false, ce)
  else (true, set_pin_count (pin_count ce - 1) ce).

(** [Continuation::pin]: the innermost entry is the head of the chain. *)
Definition pin (current : JavaThread) : bool * JavaThread :=
  match last_continuation current with
  | [] => (true, current)
  | ce :: parents =>
      let '(ok, ce') := ContinuationEntry_pin ce in
      (ok, set_last_continuation (ce' :: parents) current)
  end.

(** [Continuation::unpin]. *)
Definition unpin (current : JavaThread) : bool * JavaThread :=
  match last_continuation current with
  | [] => (true, current)
  | ce :: parents =>
      let '(ok, ce') := ContinuationEntry_unpin ce in
      (ok, set_last_continuation (ce' :: parents) current)
  end.

(** [CONT_pin], the native method behind [Continuation.pin()];
    [THROW_MSG] leaves the exception pending on the thread. *)
Definition CONT_pin (current : JavaThread) : option Exception * JavaThread :=
  let '(ok, current') := pin current in
  if negb ok
  then (Some (IllegalStateException "pin overflow"),
        set_has_pending_exception true current')
  else (None, current').

(** [CONT_unpin], the native method behind [Continuation.unpin()];
    [THROW_MSG] leaves the exception pending on the thread. *)
Definition CONT_unpin (current : JavaThread) : option Exception * JavaThread :=
  let '(ok, current') := unpin current in
  if negb ok
  then (Some (IllegalStateException "pin underflow"),
        set_has_pending_exception true current')
  else (None, current').

(** The [for] loop of [get_continuation_entry_for_continuation]. *)
Fixpoint scan_entries (continuation : oop) (entry : list ContinuationEntry)
  : option ContinuationEntry :=
  match entry with
  | [] => None
  | e :: parent =>
      if (continuation =? cont_oop e)%N then Some e
      else scan_entries continuation parent
  end.

(** [Continuation::get_continuation_entry_for_continuation]; a null
    [thread] is [None]. *)
Definition get_continuation_entry_for_continuation
  (thread : option JavaThread) (continuation : oop) : option ContinuationEntry :=
  match thread with
  | None => None
  | Some t =>
      if (continuation =? nullptr)%N then None
      else scan_entries continuation (last_continuation t)
  end.

(** [is_on_stack]: the stack test survives only as an assertion. *)
Definition is_on_stack (thread : option JavaThread) (entry : option ContinuationEntry) : bool :=
  match entry with
  | None => false
  | Some _ => true
  end.

(** [Continuation::is_continuation_mounted]. *)
Definition is_continuation_mounted (thread : option JavaThread) (continuation : oop) : bool :=
  is_on_stack thread (get_continuation_entry_for_continuation thread continuation).

(** The test [is_on_stack] keeps in a comment (lines 316-317): "return
    false if called when transitioning to Java on return from freeze". *)
Definition entry_region_is_live (t : JavaThread) (entry : ContinuationEntry) : bool :=
  negb (has_last_Java_frame t) || (last_Java_sp t <? entry_sp entry)%N.

(** The mount test as section 4.1 of the specification words it: an
    entry exists and the region it marks is part of the live stack. *)
Definition is_mounted_spec (thread : option JavaThread) (continuation : oop) : bool :=
  match thread, get_continuation_entry_for_continuation thread continuation with
  | Some t, Some entry => entry_region_is_live t entry
  | _, _ => false
  end.

(** ** 4.3 Safety predicates *)

Definition is_continuation_preempted (h : gmap N HeapObj) (cont : oop) : option bool :=
  jdk_internal_vm_Continuation.is_preempted h cont.

Definition is_continuation_done (h : gmap N HeapObj) (cont : oop) : option bool :=
  jdk_internal_vm_Continuation.done h cont.

(** [Continuation::continuation_scope]. *)
Definition continuation_scope (h : gmap N HeapObj) (continuation : oop) : option oop :=
  if (continuation =? nullptr)%N then Some nullptr
  else jdk_internal_vm_Continuation.scope h continuation.

Definition is_safe_vthread_to_preempt_for_jvmti (w : World) : bool :=
  if negb (notify_jvmti_events w) then true
  else if is_in_VTMS_transition (target w) then false
  else if is_suspended (target w) then false
  else true.

Definition is_safe_vthread_to_preempt (w : World) (cont : oop) : option bool :=
  let vthread := vthread (target w) in
  st ← java_lang_VirtualThread.state (heap w) vthread;
  if negb (st =? RUNNING) then Some false
  else if negb (java_lang_VirtualThread.is_instance (heap w) vthread) then Some false
  else
    disabled ← java_lang_VirtualThread.is_preemption_disabled (heap w) vthread;
    if (disabled : bool) then Some false
    else Some (if INCLUDE_JVMTI then is_safe_vthread_to_preempt_for_jvmti w else true).

(** [is_safe_pc_to_preempt]: [cb] is used without a null test, so a pc
    outside the interpreter that no blob contains has no result. *)
Definition is_safe_pc_to_preempt (pc : address) (target : JavaThread) : option bool :=
  if Interpreter_contains cc pc then
    match Interpreter_codelet_containing cc pc with
    | None => Some false
    | Some codelet =>
        if (0 <=? bytecode codelet) && Bytecodes_is_return cc (bytecode codelet)
        then Some true
        else if CodeletKind_eqb (kind codelet) codelet_safepoint_entry
        then Some true
        else Some false
    end
  else
    match CodeCache_find_blob cc pc with
    | None => None
    | Some cb => if is_safepoint_stub cb then Some true else Some false
    end.

(** The classifier as section 4.3 (4) of the specification words it. *)
Definition safe_pc_spec (pc : address) (target : JavaThread) : bool :=
  if Interpreter_contains cc pc then
    match Interpreter_codelet_containing cc pc with
    | None => false
    | Some codelet =>
        ((0 <=? bytecode codelet) && Bytecodes_is_return cc (bytecode codelet))
        || CodeletKind_eqb (kind codelet) codelet_safepoint_entry
    end
  else
    match CodeCache_find_blob cc pc with
    | None => false
    | Some cb => is_safepoint_stub cb && negb (is_at_poll_safepoint target)
    end.

Definition is_safe_to_preempt (w : World) (continuation : oop) (is_vthread : bool)
  : option bool :=
  if preempting (target w) then Some false
  else if negb (has_last_Java_frame (target w)) then Some false
  else if has_pending_exception (target w) then Some false
  else
    safe_pc ← is_safe_pc_to_preempt (last_Java_pc (target w)) (target w);
    if negb safe_pc then Some false
    else if is_vthread then
      safe_vthread ← is_safe_vthread_to_preempt w continuation;
      if negb safe_vthread then Some false else Some true
    else Some true.

(** The window the debugger can observe: events are being notified and
    the target is inside a mount transition or suspended. *)
Definition in_debugger_window (w : World) : bool :=
  INCLUDE_JVMTI && notify_jvmti_events w
  && (is_in_VTMS_transition (target w) || is_suspended (target w)).

(** The conditions of section 4.3 of the specification, one by one. *)
Definition safety_conditions (w : World) (is_vthread : bool) : Prop :=
  preempting (target w) = false /\
  has_last_Java_frame (target w) = true /\
  has_pending_exception (target w) = false /\
  is_safe_pc_to_preempt (last_Java_pc (target w)) (target w) = Some true /\
  (is_vthread = true ->
     java_lang_VirtualThread.state (heap w) (vthread (target w)) = Some RUNNING /\
     java_lang_VirtualThread.is_preemption_disabled (heap w) (vthread (target w)) = Some false /\
     in_debugger_window w = false).

(** ** 4.4 Preemption orchestrator *)

(** Constructor of [JvmtiUnmountBeginMark]. *)
Definition JvmtiUnmountBeginMark_ctor (is_vthread : bool) (vm : VM)
  : JvmtiUnmountBeginMark * VM :=
  if negb is_vthread
  then (mkJvmtiUnmountBeginMark freeze_pinned_native false true is_vthread, vm)
  else if notify_jvmti_events (world vm) then
    let '(succeeded, w) :=
      start_VTMS_transition rt (vthread (target (world vm))) false (world vm) in
    (mkJvmtiUnmountBeginMark freeze_pinned_native true succeeded is_vthread,
     mkVM w (fail_counter vm) (trace vm ++ [Ev_start_VTMS_transition succeeded]))
  else (mkJvmtiUnmountBeginMark freeze_pinned_native false true is_vthread, vm).

Definition set_preempt_result (res : Z) (jubm : JvmtiUnmountBeginMark)
  : JvmtiUnmountBeginMark :=
  mkJvmtiUnmountBeginMark res (_do_VTMS_transition jubm)
    (_transition_succeded jubm) (_is_vthread jubm).

(** Destructor of [JvmtiUnmountBeginMark], run when [try_preempt]
    leaves the scope of [jubm]. *)
Definition JvmtiUnmountBeginMark_dtor (jubm : JvmtiUnmountBeginMark) (vm : VM) : VM :=
  if negb (_is_vthread jubm) then vm
  else if _do_VTMS_transition jubm then
    if _preempt_result jubm =? freeze_ok then
      mkVM (rebind_to_jvmti_thread_state_of rt (threadObj (target (world vm))) (world vm))
        (fail_counter vm) (trace vm ++ [Ev_rebind_to_jvmti_thread_state_of])
    else if _transition_succeded jubm then
      mkVM (finish_VTMS_transition rt (vthread (target (world vm))) false (world vm))
        (fail_counter vm) (trace vm ++ [Ev_finish_VTMS_transition])
    else vm
  else vm.

(** Lines 251-264 of [try_preempt]: mark the target, call the freeze
    entry point at the target's last Java sp, account for a failure. *)
Definition try_preempt_freeze (vm : VM) : Z * VM :=
  let w1 := with_target (set_preempting true (target (world vm))) (world vm) in
  let sp := last_Java_sp (target w1) in
  let '(res, w2) := freeze_preempt_entry rt sp w1 in
  let tr := trace vm ++ [Ev_freeze_preempt_entry sp res] in
  if negb (res =? freeze_ok)
  then (res, mkVM (with_target (set_preempting false (target w2)) w2)
               (uint64_incr (fail_counter vm)) tr)
  else (res, mkVM w2 (fail_counter vm) tr).

(** Lines 245-264 of [try_preempt], with [jubm] in scope when JVMTI is
    compiled in. *)
Definition try_preempt_dispatch (is_vthread : bool) (vm : VM) : Z * VM :=
  if INCLUDE_JVMTI then
    let '(jubm, vm1) := JvmtiUnmountBeginMark_ctor is_vthread vm in
    if negb (_transition_succeded jubm)
    then (freeze_pinned_native, JvmtiUnmountBeginMark_dtor jubm vm1)
    else
      let '(res, vm2) := try_preempt_freeze vm1 in
      (res, JvmtiUnmountBeginMark_dtor (set_preempt_result res jubm) vm2)
  else try_preempt_freeze vm.

(** [Continuation::try_preempt]. *)
Definition try_preempt (continuation : oop) (vm : VM) : option (Z * VM) :=
  match last_continuation (target (world vm)) with
  | [] => Some (freeze_not_mounted, vm)
  | ce :: _ =>
      let mounted_cont := cont_oop ce in
      if negb (mounted_cont =? continuation)%N then Some (freeze_not_mounted, vm)
      else
        done ← is_continuation_done (heap (world vm)) mounted_cont;
        if (done : bool) then Some (freeze_not_mounted, vm)
        else
          sc ← continuation_scope (heap (world vm)) mounted_cont;
          let is_vthread := (sc =? vthread_scope (world vm))%N in
          safe ← is_safe_to_preempt (world vm) mounted_cont is_vthread;
          if negb safe then Some (freeze_pinned_native, vm)
          else Some (try_preempt_dispatch is_vthread vm)
  end.

(** A caller retrying the request [n] times. *)
Fixpoint try_preempt_retry (n : nat) (continuation : oop) (vm : VM)
  : option (list Z * VM) :=
  match n with
  | O => Some ([], vm)
  | S k =>
      match try_preempt continuation vm with
      | None => None
      | Some (res, vm1) =>
          match try_preempt_retry k continuation vm1 with
          | None => None
          | Some (rest, vm2) => Some (res :: rest, vm2)
          end
      end
  end.

(** ** Native entry point of the preemption request *)

(** [CONT_tryPreempt0]: [is_alive] is the answer of
    [cv_internal_thread_to_JavaThread]; for a live target
    [Handshake::execute] runs [PreemptHandshake::do_thread], that is
    [try_preempt], and [result()] is what it returned. *)
Definition CONT_tryPreempt0 (jcont : oop) (is_alive : bool) (vm : VM) : option (Z * VM) :=
  if is_alive then try_preempt jcont vm
  else Some (freeze_not_mounted, vm).

(** ** Stack pointers and entries *)

(** [Continuations::enabled] reads the flag [VMContinuations]. *)
Variable VMContinuations : bool.

(** The address [StubRoutines::cont_returnBarrier()]. *)
Variable cont_returnBarrier : address.

Definition Continuations_enabled : bool := VMContinuations.

(** [Continuation::is_return_barrier_entry]. *)
Definition is_return_barrier_entry (pc : address) : bool :=
  if negb Continuations_enabled then false
  else (pc =? cont_returnBarrier)%N.

(** [is_sp_in_continuation]: [entry->entry_sp() > sp]. *)
Definition is_sp_in_continuation (entry : ContinuationEntry) (sp : address) : bool :=
  (sp <? entry_sp entry)%N.

(** [Continuation::is_frame_in_continuation(const ContinuationEntry*,
    const frame&)]. *)
Definition is_frame_in_continuation_of_entry (entry : ContinuationEntry) (f : frame.t)
  : bool :=
  is_sp_in_continuation entry (frame.sp f).

(** The [while] loop of [get_continuation_entry_for_sp]. *)
Fixpoint scan_entries_for_sp (sp : address) (entry : list ContinuationEntry)
  : option ContinuationEntry :=
  match entry with
  | [] => None
  | e :: parent =>
      if is_sp_in_continuation e sp then Some e
      else scan_entries_for_sp sp parent
  end.

(** [Continuation::get_continuation_entry_for_sp]. *)
Definition get_continuation_entry_for_sp (thread : JavaThread) (sp : address)
  : option ContinuationEntry :=
  scan_entries_for_sp sp (last_continuation thread).

(** [Continuation::is_frame_in_continuation(JavaThread*, const frame&)]. *)
Definition is_frame_in_continuation (thread : JavaThread) (f : frame.t) : bool :=
  frame.is_heap_frame f ||
  match get_continuation_entry_for_sp thread (frame.sp f) with
  | Some _ => true
  | None => false
  end.

(** [Continuation::get_top_return_pc_post_barrier]. *)
Definition get_top_return_pc_post_barrier (thread : option JavaThread) (pc : address)
  : address :=
  match thread with
  | None => pc
  | Some t =>
      if is_return_barrier_entry pc then
        match last_continuation t with
        | [] => pc
        | ce :: _ => entry_pc ce
        end
      else pc
  end.

(** ** Deoptimization notice *)

(** Lines 572-574 of [notify_deopt]. *)
Definition raise_parent_cont_fastpath (sp : address) (prev : FastpathEntry)
  : FastpathEntry :=
  if (parent_cont_fastpath prev <? sp)%N then set_parent_cont_fastpath sp prev
  else prev.

(** The [do]-[while] loop of [notify_deopt] and what follows it, given
    the current [prev] and the entries from [prev->parent()] on; the
    result is the chain from [prev] on. *)
Fixpoint notify_deopt_loop (sp : address) (prev : FastpathEntry)
  (entry : list FastpathEntry) : list FastpathEntry :=
  match entry with
  | [] => [prev]
  | e :: parent =>
      if is_sp_in_continuation (fp_entry e) sp
      then raise_parent_cont_fastpath sp prev :: e :: parent
      else prev :: notify_deopt_loop sp e parent
  end.

(** [Continuation::notify_deopt] on the chain of the thread.  The
    second component is the argument of the call of
    [thread->push_cont_fastpath], if it was made. *)
Definition notify_deopt (chain : list FastpathEntry) (sp : address)
  : list FastpathEntry * option address :=
  match chain with
  | [] => ([], None)
  | entry :: parent =>
      if is_sp_in_continuation (fp_entry entry) sp then (chain, Some sp)
      else (notify_deopt_loop sp entry parent, None)
  end.

(** ** Properties used in the statements *)

(** The three situations in which [try_preempt] answers
    [freeze_not_mounted]: no innermost entry, another continuation
    mounted, or the mounted continuation already done. *)
Definition not_mounted_or_done (continuation : oop) (vm : VM) : Prop :=
  match last_continuation (target (world vm)) with
  | [] => True
  | ce :: _ =>
      cont_oop ce <> continuation \/
      is_continuation_done (heap (world vm)) (cont_oop ce) = Some true
  end.

(** The collaborators leave the [preempting] flag of the target to
    [try_preempt]. *)
Definition runtime_keeps_preempting : Prop :=
  (forall sp w,
     preempting (target (snd (freeze_preempt_entry rt sp w))) = preempting (target w)) /\
  (forall v m w,
     preempting (target (finish_VTMS_transition rt v m w)) = preempting (target w)) /\
  (forall o w,
     preempting (target (rebind_to_jvmti_thread_state_of rt o w)) = preempting (target w)).

(** Step 3 of section 4.4 of the specification, on the world [w] of
    the request: no transition is needed ([begun] false) without JVMTI,
    for a continuation that is not a virtual thread's, or while events
    are not notified; otherwise the unmount transition is started with
    [start_VTMS_transition], which answers [ok] and leaves [w0]. *)
Inductive debug_transition (is_vthread : bool) (w : World)
  : bool -> bool -> World -> Prop :=
| transition_not_needed :
    INCLUDE_JVMTI = false \/ is_vthread = false \/ notify_jvmti_events w = false ->
    debug_transition is_vthread w false true w
| transition_started (ok : bool) (w0 : World) :
    INCLUDE_JVMTI = true ->
    is_vthread = true ->
    notify_jvmti_events w = true ->
    start_VTMS_transition rt (vthread (target w)) false w = (ok, w0) ->
    debug_transition is_vthread w true ok w0.

(** The call of line 252 when the target is in world [w0]: the
    [preempting] flag is set, the argument is the last Java sp. *)
Definition freeze_call (w0 : World) : Z * World :=
  freeze_preempt_entry rt (last_Java_sp (target w0))
    (with_target (set_preempting true (target w0)) w0).

(** The calls that close a dispatch: none when no transition was begun,
    else the rebinding after [freeze_ok] and the rollback after any
    other status. *)
Definition closing_events (begun : list Event) (res : Z) : list Event :=
  match begun with
  | [] => []
  | _ :: _ =>
      if res =? freeze_ok then [Ev_rebind_to_jvmti_thread_state_of]
      else [Ev_finish_VTMS_transition]
  end.

(** The two ways lines 245-264 can end: refused at the start of the
    transition, with no call of the freeze entry point, or frozen, with
    the calls and the accounting that go with the status. *)
Inductive dispatch_outcome (vm : VM) (r : Z) (vm' : VM) : Prop :=
| dispatch_refused (evs : list Event) :
    r = freeze_pinned_native ->
    trace vm' = trace vm ++ evs ->
    (forall sp res, ~ In (Ev_freeze_preempt_entry sp res) evs) ->
    fail_counter vm' = fail_counter vm ->
    dispatch_outcome vm r vm'
| dispatch_frozen (sp : address) (begun : list Event) (w : World) :
    begun = [] \/ begun = [Ev_start_VTMS_transition true] ->
    preempting (target w) = true /\ sp = last_Java_sp (target w) /\
      r = fst (freeze_preempt_entry rt sp w) ->
    trace vm' = trace vm ++ begun ++ [Ev_freeze_preempt_entry sp r] ++ closing_events begun r ->
    fail_counter vm' =
      (if r =? freeze_ok then fail_counter vm else uint64_incr (fail_counter vm)) ->
    (runtime_keeps_preempting ->
     preempting (target (world vm')) = (r =? freeze_ok)) ->
    dispatch_outcome vm r vm'.

(** The entries lie on the stack in mount order: going outwards the
    [entry_sp] never decreases (the stack grows downwards). *)
Definition chain_in_stack_order (chain : list ContinuationEntry) : Prop :=
  StronglySorted (fun inner outer => (entry_sp inner <= entry_sp outer)%N) chain.

(** Same entries, and no [parent_cont_fastpath] lowered. *)
Definition fastpath_raised (before after : list FastpathEntry) : Prop :=
  Forall2 (fun b a =>
             fp_entry a = fp_entry b /\
             (parent_cont_fastpath b <= parent_cont_fastpath a)%N) before after.

Definition is_freeze_event (ev : Event) : bool :=
  match ev with
  | Ev_freeze_preempt_entry _ _ => true
  | _ => false
  end.

(** Every pin count of the chain is within its range. *)
Definition pin_counts_in_range (t : JavaThread) : Prop :=
  Forall (fun ce => 0 <= pin_count ce <= PIN_COUNT_MAX) (last_continuation t).

(** ** Sample data *)

Definition sample_cont : oop := 100%N.
Definition sample_done_cont : oop := 101%N.
Definition sample_vthread : oop := 200%N.
Definition sample_scope : oop := 7%N.

Definition sample_heap : gmap N HeapObj :=
  <[sample_cont := ContinuationO (mkContinuationObj false false sample_scope)]>
  (<[sample_done_cont := ContinuationO (mkContinuationObj true false sample_scope)]>
  (<[sample_vthread := ThreadO (mkThreadObj true 2 false sample_cont)]> ∅)).

Definition sample_entry (cont : oop) (pins : Z) : ContinuationEntry :=
  mkContinuationEntry 5000%N cont pins 5000%N 42%N.

(** A thread with [cont] mounted, stopped at [pc]. *)
Definition sample_thread (cont : oop) (pc : address) : JavaThread :=
  mkJavaThread [sample_entry cont 0] false true 4000%N pc false
    sample_vthread 300%N false false false 10000%N 0%N.

(** The same thread with no continuation mounted. *)
Definition sample_carrier : JavaThread :=
  set_last_continuation [] (sample_thread sample_cont 1000%N).

(** The same thread with a second continuation mounted below. *)
Definition sample_nested_thread : JavaThread :=
  set_last_continuation
    [sample_entry sample_cont 0; sample_entry sample_done_cont 1] sample_carrier.

(** The same thread while it returns from a freeze: the anchor is
    already above the entry, which is still on the chain. *)
Definition sample_returning_thread : JavaThread :=
  mkJavaThread [sample_entry sample_cont 0] false true 6000%N 1000%N false
    sample_vthread 300%N false false false 10000%N 0%N.

(** The same thread stopped in the safepoint stub at a poll. *)
Definition sample_polling_thread : JavaThread :=
  mkJavaThread [sample_entry sample_cont 0] false true 4000%N 1000%N false
    sample_vthread 300%N false false true 10000%N 0%N.

(** Interpreter code below 500 with three codelets (a [return]
    bytecode, the safepoint entry, an [iadd] bytecode); a safepoint stub
    at 1000 and an nmethod at 2000. *)
Definition sample_classifier : CodeClassifier :=
  mkCodeClassifier
    (fun pc => (pc <? 500)%N)
    (fun pc =>
       if (pc =? 10)%N then Some (mkInterpreterCodelet 177 codelet_bytecode)
       else if (pc =? 20)%N then Some (mkInterpreterCodelet (-1) codelet_safepoint_entry)
       else if (pc =? 30)%N then Some (mkInterpreterCodelet 96 codelet_bytecode)
       else None)
    (fun code => (172 <=? code) && (code <=? 177))
    (fun pc =>
       if (pc =? 1000)%N then Some (mkCodeBlob true)
       else if (pc =? 2000)%N then Some (mkCodeBlob false)
       else None).

Definition mark_preempted (o : HeapObj) : HeapObj :=
  match o with
  | ContinuationO c => ContinuationO (mkContinuationObj (done_field c) true (scope_field c))
  | ThreadO t => ThreadO t
  end.

Definition sample_unmount (w : World) : World :=
  match last_continuation (target w) with
  | [] => w
  | ce :: parents =>
      mkWorld (set_last_continuation parents (target w))
        (alter mark_preempted (cont_oop ce) (heap w))
        (notify_jvmti_events w) (vthread_scope w)
  end.

Definition set_is_in_VTMS_transition (b : bool) (t : JavaThread) : JavaThread :=
  mkJavaThread (last_continuation t) (preempting t) (has_last_Java_frame t)
    (last_Java_sp t) (last_Java_pc t) (has_pending_exception t) (vthread t)
    (threadObj t) b (is_suspended t)
    (is_at_poll_safepoint t) (stack_base t) (stack_end t).

(** A freeze engine that answers [status] and unmounts the innermost
    continuation when [status] is [0]; transitions always start. *)
Definition sample_runtime (status : Z) : Runtime :=
  mkRuntime
    (fun sp w => (status, if status =? 0 then sample_unmount w else w))
    (fun vt is_mount w => (true, with_target (set_is_in_VTMS_transition true (target w)) w))
    (fun vt is_mount w => with_target (set_is_in_VTMS_transition false (target w)) w)
    (fun o w => w).

(** Three nested mounts with entries at 5000, 7000 and 9000. *)
Definition sample_deep_thread : JavaThread :=
  set_last_continuation
    [mkContinuationEntry 5000%N sample_cont 0 5000%N 42%N;
     mkContinuationEntry 7000%N sample_done_cont 0 7000%N 43%N;
     mkContinuationEntry 9000%N 102%N 0 9000%N 44%N] sample_carrier.

Definition sample_fastpath_chain : list FastpathEntry :=
  map (fun e => mkFastpathEntry e 0%N) (last_continuation sample_deep_thread).

Definition sample_frame (sp : address) : frame.t := frame.mk sp false false.

(** A runtime whose transition is pending elsewhere and cannot start. *)
Definition sample_busy_runtime : Runtime :=
  mkRuntime
    (fun sp w => (0, sample_unmount w))
    (fun vt is_mount w => (false, w))
    (fun vt is_mount w => with_target (set_is_in_VTMS_transition false (target w)) w)
    (fun o w => w).

Definition sample_vm (t : JavaThread) : VM :=
  mkVM (mkWorld t sample_heap true sample_scope) 41 [].

(** * Theorems *)

(** ** Mount tracking *)

Lemma scan_entries_Some continuation chain e :
  scan_entries continuation chain = Some e <->
  exists pre post,
    chain = pre ++ e :: post /\ cont_oop e = continuation /\
    Forall (fun e' => cont_oop e' <> continuation) pre.
Proof.
  induction chain as [|e0 parent IH]; simpl.
  - split; [discriminate|].
    intros (pre & post & Heq & _). destruct pre; discriminate.
  - destruct (N.eqb_spec continuation (cont_oop e0)) as [Heq|Hne].
    + split.
      * intros [= <-]. exists [], parent. auto.
      * intros (pre & post & Hch & Hc & Hpre).
        destruct pre as [|p pre]; simpl in Hch.
        -- congruence.
        -- injection Hch as <- _. inversion Hpre; subst. congruence.
    + rewrite IH. split.
      * intros (pre & post & -> & Hc & Hpre).
        exists (e0 :: pre), post. repeat split; auto.
      * intros (pre & post & Hch & Hc & Hpre).
        destruct pre as [|p pre]; simpl in Hch.
        -- injection Hch as -> _. congruence.
        -- injection Hch as <- ->. inversion Hpre; subst. eauto.
Qed.

Lemma scan_entries_None continuation chain :
  scan_entries continuation chain = None <->
  Forall (fun e' => cont_oop e' <> continuation) chain.
Proof.
  induction chain as [|e0 parent IH]; simpl.
  - split; auto.
  - destruct (N.eqb_spec continuation (cont_oop e0)) as [Heq|Hne].
    + split; [discriminate|]. inversion 1; subst. congruence.
    + rewrite IH. split.
      * auto.
      * inversion 1; auto.
Qed.

(** C10. With a null thread or a null continuation
    [get_continuation_entry_for_continuation] answers none whatever the
    chain holds (even an entry whose continuation is null); otherwise
    it answers the innermost entry of the chain whose continuation is
    the given one, and none exactly when no entry matches.  The mount
    query with a null argument therefore has a result, and it is
    "not mounted". *)
Theorem get_continuation_entry_for_continuation_spec
  (t : JavaThread) (continuation : oop) :
  get_continuation_entry_for_continuation None continuation = None /\
  get_continuation_entry_for_continuation (Some t) nullptr = None /\
  (continuation <> nullptr ->
     (forall e,
        get_continuation_entry_for_continuation (Some t) continuation = Some e <->
        exists pre post,
          last_continuation t = pre ++ e :: post /\ cont_oop e = continuation /\
          Forall (fun e' => cont_oop e' <> continuation) pre) /\
     (get_continuation_entry_for_continuation (Some t) continuation = None <->
      Forall (fun e' => cont_oop e' <> continuation) (last_continuation t))) /\
  is_continuation_mounted None continuation = false /\
  is_continuation_mounted (Some t) nullptr = false.
Proof.
  repeat split; try reflexivity.
  - unfold get_continuation_entry_for_continuation.
    destruct (N.eqb_spec continuation nullptr); [contradiction|].
    apply scan_entries_Some.
  - unfold get_continuation_entry_for_continuation.
    destruct (N.eqb_spec continuation nullptr); [contradiction|].
    apply scan_entries_Some.
  - unfold get_continuation_entry_for_continuation.
    destruct (N.eqb_spec continuation nullptr); [contradiction|].
    apply scan_entries_None.
  - unfold get_continuation_entry_for_continuation.
    destruct (N.eqb_spec continuation nullptr); [contradiction|].
    apply scan_entries_None.
Qed.

(** C4, as the code has it.  [is_continuation_mounted] answers true
    exactly when the thread and the continuation are not null and some
    entry of the thread's chain holds that continuation; where the
    entry lies relative to the live stack plays no part in the
    answer. *)
Theorem is_continuation_mounted_iff (thread : option JavaThread) (continuation : oop) :
  is_continuation_mounted thread continuation = true <->
  exists t entry,
    thread = Some t /\ continuation <> nullptr /\
    In entry (last_continuation t) /\ cont_oop entry = continuation.
Proof.
  unfold is_continuation_mounted, is_on_stack, get_continuation_entry_for_continuation.
  destruct thread as [t|].
  - destruct (N.eqb_spec continuation nullptr) as [->|Hnz].
    + split; [discriminate|]. intros (? & ? & _ & Hc & _). contradiction.
    + destruct (scan_entries continuation (last_continuation t)) as [e|] eqn:Hscan.
      * split; [intros _|reflexivity].
        apply scan_entries_Some in Hscan as (pre & post & Hch & Hc & _).
        exists t, e. repeat split; auto.
        rewrite Hch. apply in_or_app. right. left. reflexivity.
      * split; [discriminate|].
        intros (t' & e & [= <-] & _ & Hin & Hc).
        apply scan_entries_None in Hscan.
        rewrite Forall_forall in Hscan. apply list_elem_of_In in Hin.
        specialize (Hscan e Hin). contradiction.
  - split; [discriminate|]. intros (? & ? & Hth & _). discriminate.
Qed.

(** C6.  [unpin] fails and leaves the thread as it is when the
    innermost entry's pin count is zero, so the count does not go below
    zero; [pin] fails and leaves the thread as it is when one more pin
    would exceed the maximum; with no continuation mounted both succeed
    and change nothing. *)
Theorem pin_unpin_refusals (current : JavaThread) :
  (forall ce parents,
     last_continuation current = ce :: parents -> pin_count ce = 0 ->
     unpin current = (false, current)) /\
  (forall ce parents,
     last_continuation current = ce :: parents -> PIN_COUNT_MAX < pin_count ce + 1 ->
     pin current = (false, current)) /\
  (last_continuation current = [] ->
     pin current = (true, current) /\ unpin current = (true, current)).
Proof.
  split; [|split].
  - intros ce parents Hch Hz. unfold unpin, ContinuationEntry_unpin.
    rewrite Hch, Hz. simpl. destruct current; simpl in *. subst. reflexivity.
  - intros ce parents Hch Hmax. unfold pin, ContinuationEntry_pin.
    rewrite Hch. destruct (Z.ltb_spec PIN_COUNT_MAX (pin_count ce + 1)); [|lia].
    destruct current; simpl in *. subst. reflexivity.
  - intros Hch. unfold pin, unpin. rewrite Hch. auto.
Qed.

(** An [unpin] after a successful [pin] succeeds and restores the
    thread (property P1 of the specification). *)
Lemma unpin_after_pin (current t1 : JavaThread) :
  0 <= PIN_COUNT_MAX ->
  Forall (fun ce => 0 <= pin_count ce) (last_continuation current) ->
  pin current = (true, t1) -> unpin t1 = (true, current).
Proof.
  intros Hmax Hpos. unfold pin, unpin, ContinuationEntry_pin, ContinuationEntry_unpin.
  destruct (last_continuation current) as [|ce parents] eqn:Hch.
  - intros [= <-]. rewrite Hch. reflexivity.
  - destruct (Z.ltb_spec PIN_COUNT_MAX (pin_count ce + 1)); [discriminate|].
    intros [= <-]. simpl.
    inversion Hpos; subst.
    destruct (Z.eqb_spec (pin_count ce + 1) 0); [lia|].
    replace (pin_count ce + 1 - 1) with (pin_count ce) by lia.
    destruct current, ce; simpl in *. subst. reflexivity.
Qed.

(** The native methods turn each refusal into an
    [IllegalStateException], pending on the thread, and leave the
    entries as they were. *)
Lemma CONT_pin_unpin_throw (current : JavaThread) (ce : ContinuationEntry)
  (parents : list ContinuationEntry) :
  last_continuation current = ce :: parents ->
  (pin_count ce = 0 ->
   CONT_unpin current
   = (Some (IllegalStateException "pin underflow"),
      set_has_pending_exception true current)) /\
  (PIN_COUNT_MAX < pin_count ce + 1 ->
   CONT_pin current
   = (Some (IllegalStateException "pin overflow"),
      set_has_pending_exception true current)).
Proof.
  intros Hch. split.
  - intros Hz. unfold CONT_unpin, unpin, ContinuationEntry_unpin.
    rewrite Hch, Hz. simpl. destruct current; simpl in *. subst. reflexivity.
  - intros Hmax. unfold CONT_pin, pin, ContinuationEntry_pin.
    rewrite Hch. destruct (Z.ltb_spec PIN_COUNT_MAX (pin_count ce + 1)); [|lia].
    simpl. destruct current; simpl in *. subst. reflexivity.
Qed.

(** ** Safety predicates *)

Lemma CodeletKind_eqb_eq (a b : CodeletKind) : CodeletKind_eqb a b = true <-> a = b.
Proof. destruct a, b; simpl; split; congruence. Qed.

(** The classifier has a result exactly when the pc is in the
    interpreter or some blob of the code cache contains it. *)
Lemma is_safe_pc_to_preempt_defined (pc : address) (t : JavaThread) :
  is_Some (is_safe_pc_to_preempt pc t) <->
  Interpreter_contains cc pc = true \/ is_Some (CodeCache_find_blob cc pc).
Proof.
  unfold is_safe_pc_to_preempt.
  destruct (Interpreter_contains cc pc).
  - split; [auto|intros _].
    destruct (Interpreter_codelet_containing cc pc) as [codelet|]; [|eauto].
    destruct (_ && _); [eauto|]. destruct (CodeletKind_eqb _ _); eauto.
  - destruct (CodeCache_find_blob cc pc) as [cb|].
    + split; [eauto|intros _]. destruct (is_safepoint_stub cb); eauto.
    + split.
      * intros [? ?]; discriminate.
      * intros [?|[? ?]]; discriminate.
Qed.

(** C3, as the code has it.  The classifier answers true exactly when
    (a) the pc is in the interpreter, at a codelet of a return bytecode
    or at a safepoint-entry codelet, or (b) the pc is outside the
    interpreter, in a blob that is a safepoint stub, whatever the
    thread's own poll state; every other pc that the interpreter or a
    blob contains is answered false. *)
Theorem is_safe_pc_to_preempt_true_iff (pc : address) (t : JavaThread) :
  (is_safe_pc_to_preempt pc t = Some true <->
   (Interpreter_contains cc pc = true /\
    exists codelet,
      Interpreter_codelet_containing cc pc = Some codelet /\
      ((0 <= bytecode codelet /\ Bytecodes_is_return cc (bytecode codelet) = true) \/
       kind codelet = codelet_safepoint_entry)) \/
   (Interpreter_contains cc pc = false /\
    exists cb, CodeCache_find_blob cc pc = Some cb /\ is_safepoint_stub cb = true)) /\
  ((Interpreter_contains cc pc = true \/ is_Some (CodeCache_find_blob cc pc)) ->
   is_safe_pc_to_preempt pc t <> Some true ->
   is_safe_pc_to_preempt pc t = Some false).
Proof.
  split.
  - unfold is_safe_pc_to_preempt.
    destruct (Interpreter_contains cc pc).
    + destruct (Interpreter_codelet_containing cc pc) as [codelet|].
      * destruct (Z.leb_spec 0 (bytecode codelet)) as [Hge|Hlt]; simpl.
        -- destruct (Bytecodes_is_return cc (bytecode codelet)) eqn:Hret.
           ++ split; [intros _|reflexivity]. left. split; [reflexivity|].
              exists codelet. auto.
           ++ destruct (CodeletKind_eqb (kind codelet) codelet_safepoint_entry) eqn:Hk.
              ** apply CodeletKind_eqb_eq in Hk.
                 split; [intros _|reflexivity]. left. split; [reflexivity|].
                 exists codelet. auto.
              ** split; [discriminate|].
                 intros [[_ (c & [= <-] & [[_ Hr]|Hk'])]|[? _]]; try congruence.
                 apply CodeletKind_eqb_eq in Hk'. congruence.
        -- destruct (CodeletKind_eqb (kind codelet) codelet_safepoint_entry) eqn:Hk.
           ++ apply CodeletKind_eqb_eq in Hk.
              split; [intros _|reflexivity]. left. split; [reflexivity|].
              exists codelet. auto.
           ++ split; [discriminate|].
              intros [[_ (c & [= <-] & [[Hge _]|Hk'])]|[? _]]; try discriminate.
              ** lia.
              ** apply CodeletKind_eqb_eq in Hk'. congruence.
      * split; [discriminate|].
        intros [[_ (c & ? & _)]|[? _]]; discriminate.
    + destruct (CodeCache_find_blob cc pc) as [cb|].
      * destruct (is_safepoint_stub cb) eqn:Hstub.
        -- split; [intros _|reflexivity]. right. split; [reflexivity|].
           exists cb. auto.
        -- split; [discriminate|].
           intros [[? _]|[_ (cb' & [= <-] & ?)]]; congruence.
      * split; [discriminate|].
        intros [[? _]|[_ (cb' & ? & _)]]; discriminate.
  - intros Hdef Hnt. apply is_safe_pc_to_preempt_defined with (t := t) in Hdef.
    destruct Hdef as [[|] Hb]; congruence.
Qed.

Lemma is_safe_vthread_to_preempt_true (w : World) (cont : oop) :
  is_safe_vthread_to_preempt w cont = Some true ->
  java_lang_VirtualThread.state (heap w) (vthread (target w)) = Some RUNNING /\
  java_lang_VirtualThread.is_instance (heap w) (vthread (target w)) = true /\
  java_lang_VirtualThread.is_preemption_disabled (heap w) (vthread (target w)) = Some false /\
  in_debugger_window w = false.
Proof.
  unfold is_safe_vthread_to_preempt, in_debugger_window,
    is_safe_vthread_to_preempt_for_jvmti.
  destruct (java_lang_VirtualThread.state _ _) as [st|]; simpl; [|discriminate].
  destruct (Z.eqb_spec st RUNNING) as [->|]; simpl; [|discriminate].
  destruct (java_lang_VirtualThread.is_instance _ _); simpl; [|discriminate].
  destruct (java_lang_VirtualThread.is_preemption_disabled _ _) as [[|]|];
    simpl; try discriminate.
  destruct INCLUDE_JVMTI; simpl; [|auto].
  destruct (notify_jvmti_events w); simpl; [|auto].
  destruct (is_in_VTMS_transition (target w)); simpl; [discriminate|].
  destruct (is_suspended (target w)); simpl; [discriminate|auto].
Qed.

Lemma is_safe_to_preempt_true (w : World) (continuation : oop) (is_vthread : bool) :
  is_safe_to_preempt w continuation is_vthread = Some true ->
  safety_conditions w is_vthread.
Proof.
  unfold is_safe_to_preempt, safety_conditions.
  destruct (preempting (target w)); [discriminate|].
  destruct (has_last_Java_frame (target w)); simpl; [|discriminate].
  destruct (has_pending_exception (target w)); [discriminate|].
  destruct (is_safe_pc_to_preempt _ _) as [[|]|]; simpl; try discriminate.
  destruct is_vthread.
  - destruct (is_safe_vthread_to_preempt w continuation) as [[|]|] eqn:Hvt;
      simpl; try discriminate.
    intros _. apply is_safe_vthread_to_preempt_true in Hvt.
    do 4 (split; [reflexivity|]). intros _. tauto.
  - intros _. do 4 (split; [reflexivity|]). discriminate.
Qed.

(** ** Refusals of the orchestrator *)

(** C1.  When the target has no innermost entry, or the entry's
    continuation is not the requested one, or the mounted continuation
    is done, [try_preempt] answers [freeze_not_mounted] and the whole
    state (flags, failure counter, list of calls made) is the one it
    started from; the same holds for any number of retries. *)
Theorem try_preempt_not_mounted (continuation : oop) (vm : VM) :
  not_mounted_or_done continuation vm ->
  try_preempt continuation vm = Some (freeze_not_mounted, vm) /\
  forall n,
    try_preempt_retry n continuation vm = Some (repeat freeze_not_mounted n, vm).
Proof.
  intros Hnm.
  assert (Hone : try_preempt continuation vm = Some (freeze_not_mounted, vm)).
  { unfold not_mounted_or_done in Hnm. unfold try_preempt.
    destruct (last_continuation (target (world vm))) as [|ce parents]; [reflexivity|].
    simpl. destruct (N.eqb_spec (cont_oop ce) continuation) as [Heq|Hne]; simpl.
    - destruct Hnm as [Hne|Hdone]; [contradiction|].
      rewrite Hdone. reflexivity.
    - reflexivity. }
  split; [exact Hone|].
  induction n as [|n IH]; simpl.
  - reflexivity.
  - rewrite Hone, IH. reflexivity.
Qed.

(** C2.  When the requested continuation is the mounted one and is not
    done, and the safety predicates evaluate to false, [try_preempt]
    answers [freeze_pinned_native] and hands back the state it was
    given: the entry chain, the continuation's [preempted] flag and the
    list of calls are unchanged, so the freeze entry point was not
    called. *)
Theorem try_preempt_unsafe (continuation : oop) (vm : VM)
  (ce : ContinuationEntry) (parents : list ContinuationEntry) (sc : oop) :
  last_continuation (target (world vm)) = ce :: parents ->
  cont_oop ce = continuation ->
  is_continuation_done (heap (world vm)) continuation = Some false ->
  continuation_scope (heap (world vm)) continuation = Some sc ->
  is_safe_to_preempt (world vm) continuation (sc =? vthread_scope (world vm))%N
    = Some false ->
  exists vm',
    try_preempt continuation vm = Some (freeze_pinned_native, vm') /\
    vm' = vm /\
    last_continuation (target (world vm')) = ce :: parents /\
    is_continuation_preempted (heap (world vm')) continuation
      = is_continuation_preempted (heap (world vm)) continuation /\
    trace vm' = trace vm.
Proof.
  intros Hch Hc Hdone Hsc Hsafe. exists vm.
  split; [|auto].
  unfold try_preempt. rewrite Hch. simpl. rewrite Hc, N.eqb_refl. simpl.
  rewrite Hdone. simpl. rewrite Hsc. simpl. rewrite Hsafe. reflexivity.
Qed.

(** Below the largest 64-bit value the increment is the successor. *)
Lemma uint64_incr_small (c : Z) :
  0 <= c < uint64_modulus - 1 -> uint64_incr c = c + 1.
Proof.
  intros Hc. unfold uint64_incr. apply Z.mod_small. lia.
Qed.

(** ** The dispatch *)

(** What lines 251-264 do, in one equation. *)
Lemma try_preempt_freeze_eq (vm : VM) :
  let w1 := with_target (set_preempting true (target (world vm))) (world vm) in
  let sp := last_Java_sp (target (world vm)) in
  let res := fst (freeze_preempt_entry rt sp w1) in
  let w2 := snd (freeze_preempt_entry rt sp w1) in
  try_preempt_freeze vm =
  (res,
   mkVM (if res =? freeze_ok then w2
         else with_target (set_preempting false (target w2)) w2)
        (if res =? freeze_ok then fail_counter vm else uint64_incr (fail_counter vm))
        (trace vm ++ [Ev_freeze_preempt_entry sp res])).
Proof.
  unfold try_preempt_freeze. simpl.
  destruct (freeze_preempt_entry rt _ _) as [res w2]. simpl.
  destruct (res =? freeze_ok); reflexivity.
Qed.

Lemma try_preempt_freeze_outcome (vm : VM) (r : Z) (vm' : VM) :
  try_preempt_freeze vm = (r, vm') ->
  r = fst (freeze_preempt_entry rt (last_Java_sp (target (world vm)))
             (with_target (set_preempting true (target (world vm))) (world vm))) /\
  trace vm' = trace vm ++ [Ev_freeze_preempt_entry (last_Java_sp (target (world vm))) r] /\
  fail_counter vm' =
    (if r =? freeze_ok then fail_counter vm else uint64_incr (fail_counter vm)) /\
  (runtime_keeps_preempting -> preempting (target (world vm')) = (r =? freeze_ok)).
Proof.
  rewrite try_preempt_freeze_eq. cbv zeta. intros [= <- <-]. simpl.
  split; [reflexivity|]. split; [reflexivity|]. split; [reflexivity|].
  intros (Hfreeze & _ & _).
  destruct (_ =? freeze_ok).
  - rewrite Hfreeze. reflexivity.
  - reflexivity.
Qed.

Lemma try_preempt_dispatch_outcome (is_vthread : bool) (vm : VM) (r : Z) (vm' : VM) :
  try_preempt_dispatch is_vthread vm = (r, vm') -> dispatch_outcome vm r vm'.
Proof.
  unfold try_preempt_dispatch.
  destruct INCLUDE_JVMTI.
  - unfold JvmtiUnmountBeginMark_ctor.
    destruct is_vthread; simpl.
    + destruct (notify_jvmti_events (world vm)) eqn:Hnotify.
      * destruct (start_VTMS_transition rt _ _ _) as [succeeded w] eqn:Hstart.
        destruct succeeded; simpl.
        -- destruct (try_preempt_freeze _) as [res vm2] eqn:Hfreeze.
           apply try_preempt_freeze_outcome in Hfreeze as (Hres & Htr & Hfc & Hflag).
           simpl in Htr, Hfc.
           unfold JvmtiUnmountBeginMark_dtor. simpl.
           intros [= <- <-].
           apply dispatch_frozen
             with (sp := last_Java_sp (target w)) (begun := [Ev_start_VTMS_transition true])
                  (w := with_target (set_preempting true (target w)) w).
           ++ auto.
           ++ auto.
           ++ simpl. destruct (res =? freeze_ok); simpl; rewrite Htr, <- !app_assoc;
                reflexivity.
           ++ destruct (res =? freeze_ok); simpl; exact Hfc.
           ++ intros Hk. specialize (Hflag Hk). destruct Hk as (_ & Hfin & Hreb).
              destruct (res =? freeze_ok); simpl.
              ** rewrite Hreb. exact Hflag.
              ** rewrite Hfin. exact Hflag.
        -- unfold JvmtiUnmountBeginMark_dtor. simpl.
           destruct (freeze_pinned_native =? freeze_ok); intros [= <- <-]; simpl.
           ++ apply dispatch_refused
                with (evs := [Ev_start_VTMS_transition false;
                              Ev_rebind_to_jvmti_thread_state_of]).
              ** reflexivity.
              ** simpl. rewrite <- app_assoc. reflexivity.
              ** intros sp res [?|[?|[]]]; discriminate.
              ** reflexivity.
           ++ apply dispatch_refused with (evs := [Ev_start_VTMS_transition false]).
              ** reflexivity.
              ** reflexivity.
              ** intros sp res [?|[]]; discriminate.
              ** reflexivity.
      * destruct (try_preempt_freeze vm) as [res vm2] eqn:Hfreeze.
        apply try_preempt_freeze_outcome in Hfreeze as (Hres & Htr & Hfc & Hflag).
        unfold JvmtiUnmountBeginMark_dtor. simpl. intros [= <- <-].
        apply dispatch_frozen with (sp := last_Java_sp (target (world vm))) (begun := [])
          (w := with_target (set_preempting true (target (world vm))) (world vm));
          auto.
    + destruct (try_preempt_freeze vm) as [res vm2] eqn:Hfreeze.
      apply try_preempt_freeze_outcome in Hfreeze as (Hres & Htr & Hfc & Hflag).
      unfold JvmtiUnmountBeginMark_dtor. simpl. intros [= <- <-].
      apply dispatch_frozen with (sp := last_Java_sp (target (world vm))) (begun := [])
          (w := with_target (set_preempting true (target (world vm))) (world vm));
        auto.
  - intros Hfreeze.
    apply try_preempt_freeze_outcome in Hfreeze as (Hres & Htr & Hfc & Hflag).
    apply dispatch_frozen with (sp := last_Java_sp (target (world vm))) (begun := [])
          (w := with_target (set_preempting true (target (world vm))) (world vm));
      auto.
Qed.

Lemma try_preempt_cases (continuation : oop) (vm : VM) (r : Z) (vm' : VM) :
  try_preempt continuation vm = Some (r, vm') ->
  (vm' = vm /\ (r = freeze_not_mounted \/ r = freeze_pinned_native)) \/
  (exists ce parents sc,
     last_continuation (target (world vm)) = ce :: parents /\
     cont_oop ce = continuation /\
     is_continuation_done (heap (world vm)) continuation = Some false /\
     continuation_scope (heap (world vm)) continuation = Some sc /\
     is_safe_to_preempt (world vm) continuation (sc =? vthread_scope (world vm))%N
       = Some true /\
     try_preempt_dispatch (sc =? vthread_scope (world vm))%N vm = (r, vm')).
Proof.
  unfold try_preempt.
  destruct (last_continuation (target (world vm))) as [|ce parents] eqn:Hch.
  - intros [= <- <-]. auto.
  - simpl. destruct (N.eqb_spec (cont_oop ce) continuation) as [Hc|Hc]; simpl.
    + rewrite Hc.
      destruct (is_continuation_done _ _) as [[|]|] eqn:Hdone; simpl;
        try discriminate.
      * intros [= <- <-]. auto.
      * destruct (continuation_scope _ _) as [sc|] eqn:Hsc; simpl; [|discriminate].
        destruct (is_safe_to_preempt _ _ _) as [[|]|] eqn:Hsafe; simpl;
          try discriminate.
        -- intros [= Hd]. right. exists ce, parents, sc. auto 10.
        -- intros [= <- <-]. auto.
    + intros [= <- <-]. auto.
Qed.

(** The three ways a request ends, with what was checked on the way. *)
Lemma try_preempt_paths (continuation : oop) (vm : VM) (r : Z) (vm' : VM) :
  try_preempt continuation vm = Some (r, vm') ->
  (vm' = vm /\ r = freeze_not_mounted /\ not_mounted_or_done continuation vm) \/
  (exists ce parents sc,
     last_continuation (target (world vm)) = ce :: parents /\
     cont_oop ce = continuation /\
     is_continuation_done (heap (world vm)) continuation = Some false /\
     continuation_scope (heap (world vm)) continuation = Some sc /\
     ((vm' = vm /\ r = freeze_pinned_native /\
       is_safe_to_preempt (world vm) continuation (sc =? vthread_scope (world vm))%N
         = Some false) \/
      (is_safe_to_preempt (world vm) continuation (sc =? vthread_scope (world vm))%N
         = Some true /\
       try_preempt_dispatch (sc =? vthread_scope (world vm))%N vm = (r, vm')))).
Proof.
  unfold try_preempt, not_mounted_or_done.
  destruct (last_continuation (target (world vm))) as [|ce parents] eqn:Hch.
  - intros [= <- <-]. auto.
  - simpl. destruct (N.eqb_spec (cont_oop ce) continuation) as [Hc|Hc]; simpl.
    + rewrite Hc.
      destruct (is_continuation_done _ _) as [[|]|] eqn:Hdone; simpl;
        try discriminate.
      * intros [= <- <-]. auto.
      * destruct (continuation_scope _ _) as [sc|] eqn:Hsc; simpl; [|discriminate].
        destruct (is_safe_to_preempt _ _ _) as [[|]|] eqn:Hsafe; simpl;
          try discriminate.
        -- intros [= Hd]. right. exists ce, parents, sc. auto 10.
        -- intros [= <- <-]. right. exists ce, parents, sc. auto 10.
    + intros [= <- <-]. auto.
Qed.

(** Every request falls under exactly one case of step 3. *)
Lemma debug_transition_total (is_vthread : bool) (w : World) :
  exists begun ok w0, debug_transition is_vthread w begun ok w0.
Proof.
  destruct INCLUDE_JVMTI eqn:Hjvmti;
    [destruct is_vthread eqn:Hvt; [destruct (notify_jvmti_events w) eqn:Hnotify|]|].
  - destruct (start_VTMS_transition rt (vthread (target w)) false w) as [ok w0] eqn:Hstart.
    exists true, ok, w0. apply transition_started; auto.
  - exists false, true, w. apply transition_not_needed. auto.
  - exists false, true, w. apply transition_not_needed. auto.
  - exists false, true, w. apply transition_not_needed. auto.
Qed.

(** Lines 245-264 when the transition, if one is needed, has started:
    the result, the world, the counter and the calls, one by one. *)
Lemma try_preempt_dispatch_started (is_vthread : bool) (vm : VM) (begun : bool)
  (w0 : World) :
  debug_transition is_vthread (world vm) begun true w0 ->
  try_preempt_dispatch is_vthread vm =
  (fst (freeze_call w0),
   mkVM
     (if begun then
        if fst (freeze_call w0) =? freeze_ok
        then rebind_to_jvmti_thread_state_of rt
               (threadObj (target (snd (freeze_call w0)))) (snd (freeze_call w0))
        else finish_VTMS_transition rt
               (vthread (target (snd (freeze_call w0)))) false
               (with_target (set_preempting false (target (snd (freeze_call w0))))
                  (snd (freeze_call w0)))
      else
        if fst (freeze_call w0) =? freeze_ok then snd (freeze_call w0)
        else with_target (set_preempting false (target (snd (freeze_call w0))))
               (snd (freeze_call w0)))
     (if fst (freeze_call w0) =? freeze_ok then fail_counter vm
      else uint64_incr (fail_counter vm))
     (trace vm
      ++ (if begun then [Ev_start_VTMS_transition true] else [])
      ++ [Ev_freeze_preempt_entry (last_Java_sp (target w0)) (fst (freeze_call w0))]
      ++ (if begun then
            [if fst (freeze_call w0) =? freeze_ok
             then Ev_rebind_to_jvmti_thread_state_of
             else Ev_finish_VTMS_transition]
          else []))).
Proof.
  intros Htrans. unfold try_preempt_dispatch, JvmtiUnmountBeginMark_ctor,
    JvmtiUnmountBeginMark_dtor.
  inversion Htrans as [Hplain|ok w0' Hjvmti Hvt Hnotify Hstart]; subst.
  - rewrite try_preempt_freeze_eq. cbv zeta. fold (freeze_call (world vm)).
    destruct INCLUDE_JVMTI.
    + destruct is_vthread; simpl.
      * destruct (notify_jvmti_events (world vm)).
        -- destruct Hplain as [?|[?|?]]; discriminate.
        -- rewrite try_preempt_freeze_eq. cbv zeta. fold (freeze_call (world vm)).
           simpl. reflexivity.
      * rewrite try_preempt_freeze_eq. cbv zeta. fold (freeze_call (world vm)).
        simpl. reflexivity.
    + reflexivity.
  - rewrite Hjvmti. simpl. rewrite Hnotify, Hstart. simpl.
    rewrite try_preempt_freeze_eq. cbv zeta. simpl. fold (freeze_call w0).
    destruct (fst (freeze_call w0) =? freeze_ok); simpl;
      rewrite <- !app_assoc; reflexivity.
Qed.

(** Lines 245-250 when the transition cannot be started. *)
Lemma try_preempt_dispatch_refused (is_vthread : bool) (vm : VM) (begun : bool)
  (w0 : World) :
  debug_transition is_vthread (world vm) begun false w0 ->
  fst (try_preempt_dispatch is_vthread vm) = freeze_pinned_native.
Proof.
  intros Htrans. unfold try_preempt_dispatch, JvmtiUnmountBeginMark_ctor.
  inversion Htrans as [|ok w0' Hjvmti Hvt Hnotify Hstart]; subst.
  rewrite Hjvmti. simpl. rewrite Hnotify, Hstart. reflexivity.
Qed.

(** C5, as the code has it.  The value [try_preempt] returns is fixed
    by the path the request takes: [freeze_not_mounted] when nothing,
    another continuation or a finished one is mounted;
    [freeze_pinned_native] when the safety predicates answer false or
    the transition cannot be started; and on every other path the very
    status the freeze entry point returned for this request, whatever
    that status is. *)
Theorem try_preempt_status (continuation : oop) (vm : VM) (r : Z) (vm' : VM) :
  try_preempt continuation vm = Some (r, vm') ->
  (not_mounted_or_done continuation vm /\ r = freeze_not_mounted) \/
  (exists ce parents sc,
     last_continuation (target (world vm)) = ce :: parents /\
     cont_oop ce = continuation /\
     is_continuation_done (heap (world vm)) continuation = Some false /\
     continuation_scope (heap (world vm)) continuation = Some sc /\
     ((is_safe_to_preempt (world vm) continuation (sc =? vthread_scope (world vm))%N
         = Some false /\
       r = freeze_pinned_native) \/
      (is_safe_to_preempt (world vm) continuation (sc =? vthread_scope (world vm))%N
         = Some true /\
       exists begun ok w0,
         debug_transition (sc =? vthread_scope (world vm))%N (world vm) begun ok w0 /\
         ((ok = false /\ r = freeze_pinned_native) \/
          (ok = true /\ r = fst (freeze_call w0)))))).
Proof.
  intros Hrun. apply try_preempt_paths in Hrun as [(_ & -> & Hnm)|Hm]; [auto|].
  right. destruct Hm as (ce & parents & sc & Hch & Hc & Hdone & Hsc & Hpath).
  exists ce, parents, sc. do 4 (split; [assumption|]).
  destruct Hpath as [(_ & -> & Hsafe)|[Hsafe Hd]]; [auto|].
  right. split; [exact Hsafe|].
  destruct (debug_transition_total (sc =? vthread_scope (world vm))%N (world vm))
    as (begun & ok & w0 & Htrans).
  exists begun, ok, w0. split; [exact Htrans|].
  destruct ok.
  - right. split; [reflexivity|].
    rewrite (try_preempt_dispatch_started _ _ _ _ Htrans) in Hd.
    injection Hd as <- _. reflexivity.
  - left. split; [reflexivity|].
    apply try_preempt_dispatch_refused in Htrans. rewrite Hd in Htrans. exact Htrans.
Qed.

(** C7.  Whenever [is_safe_to_preempt] has a result: it is true only if
    every condition of section 4.3 holds on the snapshot (not already
    preempting, a last Java frame, no pending exception, a safe pc, and
    for a virtual thread the state RUNNING, preemption not disabled and
    no debugger-visible transition or suspension), and it is false as
    soon as one of them fails.  And [try_preempt] calls the freeze
    entry point only from a snapshot on which all of them hold. *)
Theorem freeze_only_when_safe (continuation : oop) (vm : VM) :
  (forall is_vthread b,
     is_safe_to_preempt (world vm) continuation is_vthread = Some b ->
     (b = true -> safety_conditions (world vm) is_vthread) /\
     (~ safety_conditions (world vm) is_vthread -> b = false)) /\
  (forall r vm' evs sp res,
     try_preempt continuation vm = Some (r, vm') ->
     trace vm' = trace vm ++ evs ->
     In (Ev_freeze_preempt_entry sp res) evs ->
     exists sc,
       continuation_scope (heap (world vm)) continuation = Some sc /\
       safety_conditions (world vm) (sc =? vthread_scope (world vm))%N).
Proof.
  split.
  - intros is_vthread b Hsafe. split.
    + intros ->. eapply is_safe_to_preempt_true; eauto.
    + intros Hnot. destruct b; [|reflexivity].
      exfalso. apply Hnot. eapply is_safe_to_preempt_true; eauto.
  - intros r vm' evs sp res Hrun Htr Hin.
    apply try_preempt_cases in Hrun as [[-> _]|Hd].
    + rewrite <- (app_nil_r (trace vm)) in Htr at 1.
      apply app_inv_head in Htr. subst evs. destruct Hin.
    + destruct Hd as (ce & parents & sc & _ & _ & _ & Hsc & Hsafe & _).
      exists sc. split; [exact Hsc|].
      eapply is_safe_to_preempt_true; eauto.
Qed.

(** A refused transition leaves no call of the freeze entry point. *)
Lemma try_preempt_dispatch_refused_trace (is_vthread : bool) (vm : VM) (begun : bool)
  (w0 : World) (r : Z) (vm' : VM) (evs : list Event) (sp : address) (res : Z) :
  debug_transition is_vthread (world vm) begun false w0 ->
  try_preempt_dispatch is_vthread vm = (r, vm') ->
  trace vm' = trace vm ++ evs ->
  ~ In (Ev_freeze_preempt_entry sp res) evs.
Proof.
  intros Htrans. unfold try_preempt_dispatch, JvmtiUnmountBeginMark_ctor,
    JvmtiUnmountBeginMark_dtor.
  inversion Htrans as [|ok w0' Hjvmti Hvt Hnotify Hstart]; subst.
  rewrite Hjvmti. simpl. rewrite Hnotify, Hstart. simpl.
  destruct (freeze_pinned_native =? freeze_ok); intros [= <- <-]; simpl;
    rewrite <- ?app_assoc; intros Htr; apply app_inv_head in Htr; subst evs; simpl;
    intros Hin; repeat (destruct Hin as [Hin|Hin]; [discriminate|]); exact Hin.
Qed.

(** The conditions of the dispatch are met by every run in which the
    freeze entry point was called. *)
Lemma freeze_event_needs_dispatch (continuation : oop) (vm : VM) (r : Z) (vm' : VM)
  (evs : list Event) (sp : address) (res : Z) :
  try_preempt continuation vm = Some (r, vm') ->
  trace vm' = trace vm ++ evs ->
  In (Ev_freeze_preempt_entry sp res) evs ->
  exists ce parents sc begun w0,
    last_continuation (target (world vm)) = ce :: parents /\
    cont_oop ce = continuation /\
    is_continuation_done (heap (world vm)) continuation = Some false /\
    continuation_scope (heap (world vm)) continuation = Some sc /\
    is_safe_to_preempt (world vm) continuation (sc =? vthread_scope (world vm))%N
      = Some true /\
    debug_transition (sc =? vthread_scope (world vm))%N (world vm) begun true w0.
Proof.
  intros Hrun Htr Hin.
  apply try_preempt_paths in Hrun as [(-> & _ & _)|Hm].
  { rewrite <- (app_nil_r (trace vm)) in Htr at 1.
    apply app_inv_head in Htr. subst evs. destruct Hin. }
  destruct Hm as (ce & parents & sc & Hch & Hc & Hdone & Hsc & [(-> & _ & _)|[Hsafe Hd]]).
  { rewrite <- (app_nil_r (trace vm)) in Htr at 1.
    apply app_inv_head in Htr. subst evs. destruct Hin. }
  destruct (debug_transition_total (sc =? vthread_scope (world vm))%N (world vm))
    as (begun & [|] & w0 & Htrans).
  - exists ce, parents, sc, begun, w0. auto 10.
  - exfalso. exact (try_preempt_dispatch_refused_trace _ _ _ _ _ _ _ sp res Htrans Hd Htr Hin).
Qed.

(** C8.  Provided the collaborators leave the [preempting] flag alone.
    Whenever a request reaches the dispatch (the requested continuation
    mounted and not done, the safety predicates true, the debug
    transition started if one is needed), [try_preempt] calls the
    freeze entry point with the [preempting] flag set and returns its
    status [res].  If [res] is not [freeze_ok] the flag ends cleared,
    the failure counter is one more (as a 64-bit unsigned value), and a
    transition that was begun is rolled back by
    [finish_VTMS_transition] right after the call.  If [res] is
    [freeze_ok] the flag ends set, the counter is as before, and a
    transition that was begun is closed by
    [rebind_to_jvmti_thread_state_of] and not rolled back. *)
Theorem try_preempt_after_dispatch (continuation : oop) (vm : VM)
  (ce : ContinuationEntry) (parents : list ContinuationEntry) (sc : oop)
  (begun : bool) (w0 : World) :
  runtime_keeps_preempting ->
  last_continuation (target (world vm)) = ce :: parents ->
  cont_oop ce = continuation ->
  is_continuation_done (heap (world vm)) continuation = Some false ->
  continuation_scope (heap (world vm)) continuation = Some sc ->
  is_safe_to_preempt (world vm) continuation (sc =? vthread_scope (world vm))%N
    = Some true ->
  debug_transition (sc =? vthread_scope (world vm))%N (world vm) begun true w0 ->
  exists vm',
    try_preempt continuation vm = Some (fst (freeze_call w0), vm') /\
    (fst (freeze_call w0) <> freeze_ok ->
       preempting (target (world vm')) = false /\
       fail_counter vm' = uint64_incr (fail_counter vm) /\
       trace vm' =
         trace vm
         ++ (if begun then [Ev_start_VTMS_transition true] else [])
         ++ [Ev_freeze_preempt_entry (last_Java_sp (target w0)) (fst (freeze_call w0))]
         ++ (if begun then [Ev_finish_VTMS_transition] else []) /\
       world vm' =
         (if begun
          then finish_VTMS_transition rt
                 (vthread (target (snd (freeze_call w0)))) false
                 (with_target (set_preempting false (target (snd (freeze_call w0))))
                    (snd (freeze_call w0)))
          else with_target (set_preempting false (target (snd (freeze_call w0))))
                 (snd (freeze_call w0)))) /\
    (fst (freeze_call w0) = freeze_ok ->
       preempting (target (world vm')) = true /\
       fail_counter vm' = fail_counter vm /\
       trace vm' =
         trace vm
         ++ (if begun then [Ev_start_VTMS_transition true] else [])
         ++ [Ev_freeze_preempt_entry (last_Java_sp (target w0)) (fst (freeze_call w0))]
         ++ (if begun then [Ev_rebind_to_jvmti_thread_state_of] else []) /\
       world vm' =
         (if begun
          then rebind_to_jvmti_thread_state_of rt
                 (threadObj (target (snd (freeze_call w0)))) (snd (freeze_call w0))
          else snd (freeze_call w0))).
Proof.
  intros (Hfreeze & Hfinish & Hrebind) Hch Hc Hdone Hsc Hsafe Htrans.
  eexists. split.
  - unfold try_preempt. rewrite Hch. simpl. rewrite Hc, N.eqb_refl. simpl.
    rewrite Hdone. simpl. rewrite Hsc. simpl. rewrite Hsafe. simpl.
    rewrite (try_preempt_dispatch_started _ _ _ _ Htrans). reflexivity.
  - assert (Hset : preempting (target (snd (freeze_call w0))) = true).
    { unfold freeze_call. rewrite Hfreeze. reflexivity. }
    split.
    + intros Hne. apply Z.eqb_neq in Hne. simpl. rewrite Hne.
      split; [|split; [reflexivity|split; [reflexivity|reflexivity]]].
      destruct begun; [rewrite Hfinish|]; reflexivity.
    + intros Heq. simpl. rewrite Heq, Z.eqb_refl.
      split; [|split; [reflexivity|split; [reflexivity|reflexivity]]].
      destruct begun; [rewrite Hrebind|]; exact Hset.
Qed.

(** * Stack pointers, return barrier and deoptimization notices *)

Lemma scan_entries_for_sp_Some (sp : address) (chain : list ContinuationEntry)
  (e : ContinuationEntry) :
  scan_entries_for_sp sp chain = Some e <->
  exists pre post,
    chain = pre ++ e :: post /\ (sp < entry_sp e)%N /\
    Forall (fun e' => (entry_sp e' <= sp)%N) pre.
Proof.
  unfold is_sp_in_continuation.
  induction chain as [|e0 parent IH]; simpl.
  - split; [discriminate|].
    intros (pre & post & Heq & _). destruct pre; discriminate.
  - unfold is_sp_in_continuation.
    destruct (N.ltb_spec sp (entry_sp e0)) as [Hin|Hout].
    + split.
      * intros [= <-]. exists [], parent. auto.
      * intros (pre & post & Hch & Hlt & Hpre).
        destruct pre as [|p pre]; simpl in Hch.
        -- congruence.
        -- injection Hch as <- _. inversion Hpre; subst. lia.
    + rewrite IH. split.
      * intros (pre & post & -> & Hlt & Hpre).
        exists (e0 :: pre), post. repeat split; auto.
      * intros (pre & post & Hch & Hlt & Hpre).
        destruct pre as [|p pre]; simpl in Hch.
        -- injection Hch as -> _. lia.
        -- injection Hch as <- ->. inversion Hpre; subst. eauto.
Qed.

Lemma scan_entries_for_sp_None (sp : address) (chain : list ContinuationEntry) :
  scan_entries_for_sp sp chain = None <->
  Forall (fun e' => (entry_sp e' <= sp)%N) chain.
Proof.
  induction chain as [|e0 parent IH]; simpl.
  - split; auto.
  - unfold is_sp_in_continuation.
    destruct (N.ltb_spec sp (entry_sp e0)) as [Hin|Hout].
    + split; [discriminate|]. inversion 1; subst. lia.
    + rewrite IH. split; [auto|]. inversion 1; auto.
Qed.

(** X1.  [get_continuation_entry_for_sp] answers the innermost entry
    whose [entry_sp] is above [sp]: every entry before it on the chain
    has its [entry_sp] at or below [sp]; it answers none exactly when
    no entry of the chain lies above [sp]. *)
Theorem get_continuation_entry_for_sp_spec (thread : JavaThread) (sp : address) :
  (forall e,
     get_continuation_entry_for_sp thread sp = Some e <->
     exists pre post,
       last_continuation thread = pre ++ e :: post /\ (sp < entry_sp e)%N /\
       Forall (fun e' => (entry_sp e' <= sp)%N) pre) /\
  (get_continuation_entry_for_sp thread sp = None <->
   Forall (fun e' => (entry_sp e' <= sp)%N) (last_continuation thread)).
Proof.
  split.
  - intros e. apply scan_entries_for_sp_Some.
  - apply scan_entries_for_sp_None.
Qed.

Lemma scan_entries_for_sp_below (sp sp' : address) (chain : list ContinuationEntry)
  (e : ContinuationEntry) :
  (sp' <= sp)%N -> scan_entries_for_sp sp chain = Some e ->
  exists e', scan_entries_for_sp sp' chain = Some e'.
Proof.
  intros Hle Hfound.
  destruct (scan_entries_for_sp sp' chain) as [e'|] eqn:Hlow; [eauto|].
  exfalso. apply scan_entries_for_sp_None in Hlow.
  apply scan_entries_for_sp_Some in Hfound as (pre & post & -> & Hlt & _).
  apply List.Forall_app in Hlow as [_ Hlow]. inversion Hlow; subst. lia.
Qed.

(** X2.  A heap frame is in a continuation whatever the thread and
    its chain, an empty chain included.  And whatever lies deeper on
    the stack than a frame of a mounted continuation is in a
    continuation too: if a thread frame is in a continuation, so is
    every frame of that thread with a lower or equal sp. *)
Theorem is_frame_in_continuation_below (thread : JavaThread) (f f' : frame.t) :
  (frame.is_heap_frame f = true -> is_frame_in_continuation thread f = true) /\
  (is_frame_in_continuation thread f = true ->
   frame.is_heap_frame f = false ->
   (frame.sp f' <= frame.sp f)%N ->
   is_frame_in_continuation thread f' = true).
Proof.
  unfold is_frame_in_continuation, get_continuation_entry_for_sp. split.
  - intros ->. reflexivity.
  - intros Hin Hstack Hle. rewrite Hstack in Hin. simpl in Hin.
    destruct (scan_entries_for_sp (frame.sp f) (last_continuation thread)) as [e|] eqn:Hf;
      [|discriminate].
    destruct (scan_entries_for_sp_below _ _ _ _ Hle Hf) as (e' & ->).
    apply orb_true_r.
Qed.

(** X3.  The entry found for a stack pointer belongs to a continuation
    that the mount query reports as mounted on that thread. *)
Theorem entry_for_sp_is_mounted (thread : JavaThread) (sp : address)
  (e : ContinuationEntry) :
  get_continuation_entry_for_sp thread sp = Some e ->
  cont_oop e <> nullptr ->
  is_continuation_mounted (Some thread) (cont_oop e) = true.
Proof.
  unfold get_continuation_entry_for_sp. intros Hfound Hnz.
  apply scan_entries_for_sp_Some in Hfound as (pre & post & Hch & _).
  unfold is_continuation_mounted, is_on_stack, get_continuation_entry_for_continuation.
  destruct (N.eqb_spec (cont_oop e) nullptr); [contradiction|].
  destruct (scan_entries (cont_oop e) (last_continuation thread)) eqn:Hscan;
    [reflexivity|].
  apply scan_entries_None in Hscan. rewrite Hch in Hscan.
  apply List.Forall_app in Hscan as [_ Hscan]. inversion Hscan; subst. congruence.
Qed.

(** X4.  On a chain laid out in stack order the entry found for a stack
    pointer is the closest one above it: no entry of the chain above
    [sp] has a lower [entry_sp]. *)
Theorem entry_for_sp_is_closest (thread : JavaThread) (sp : address)
  (e e' : ContinuationEntry) :
  chain_in_stack_order (last_continuation thread) ->
  get_continuation_entry_for_sp thread sp = Some e ->
  In e' (last_continuation thread) ->
  (sp < entry_sp e')%N ->
  (entry_sp e <= entry_sp e')%N.
Proof.
  unfold chain_in_stack_order, get_continuation_entry_for_sp.
  intros Hsorted Hfound Hin Habove.
  apply scan_entries_for_sp_Some in Hfound as (pre & post & Hch & Hlt & Hpre).
  rewrite Hch in Hsorted, Hin. clear Hch.
  induction pre as [|p pre IH]; simpl in *.
  - inversion Hsorted as [|? ? _ Hall]; subst.
    destruct Hin as [<-|Hin]; [lia|].
    rewrite List.Forall_forall in Hall. exact (Hall _ Hin).
  - inversion Hsorted; subst. inversion Hpre; subst.
    destruct Hin as [<-|Hin]; [lia|]. auto.
Qed.

(** X9.  [get_top_return_pc_post_barrier] hands back any pc other than
    the return barrier as it is; for a thread with a mounted
    continuation whose entry pc is not the return barrier itself, the
    result is never the return barrier, and asking again changes
    nothing. *)
Theorem get_top_return_pc_post_barrier_resolves (t : JavaThread)
  (ce : ContinuationEntry) (parents : list ContinuationEntry) (pc : address) :
  last_continuation t = ce :: parents ->
  is_return_barrier_entry (entry_pc ce) = false ->
  is_return_barrier_entry (get_top_return_pc_post_barrier (Some t) pc) = false /\
  get_top_return_pc_post_barrier (Some t) (get_top_return_pc_post_barrier (Some t) pc)
    = get_top_return_pc_post_barrier (Some t) pc /\
  (is_return_barrier_entry pc = false ->
   forall thread, get_top_return_pc_post_barrier thread pc = pc).
Proof.
  intros Hch Hentry.
  assert (Hid : is_return_barrier_entry pc = false ->
                forall thread, get_top_return_pc_post_barrier thread pc = pc).
  { intros Hpc [t'|]; simpl; [rewrite Hpc|]; reflexivity. }
  split; [|split; [|exact Hid]].
  - simpl. rewrite Hch.
    destruct (is_return_barrier_entry pc) eqn:Hpc; [exact Hentry|exact Hpc].
  - simpl. rewrite Hch.
    destruct (is_return_barrier_entry pc) eqn:Hpc.
    + rewrite Hentry. reflexivity.
    + rewrite Hpc. reflexivity.
Qed.

Lemma raise_parent_cont_fastpath_entry (sp : address) (prev : FastpathEntry) :
  fp_entry (raise_parent_cont_fastpath sp prev) = fp_entry prev.
Proof.
  unfold raise_parent_cont_fastpath. destruct (_ <? _)%N; reflexivity.
Qed.

Lemma raise_parent_cont_fastpath_value (sp : address) (prev : FastpathEntry) :
  parent_cont_fastpath (raise_parent_cont_fastpath sp prev)
  = N.max (parent_cont_fastpath prev) sp.
Proof.
  unfold raise_parent_cont_fastpath.
  destruct (N.ltb_spec (parent_cont_fastpath prev) sp); simpl; lia.
Qed.

Lemma FastpathEntry_eq (a b : FastpathEntry) :
  fp_entry a = fp_entry b -> parent_cont_fastpath a = parent_cont_fastpath b -> a = b.
Proof.
  destruct a, b; simpl. intros -> ->. reflexivity.
Qed.

Lemma raise_parent_cont_fastpath_comm (sp1 sp2 : address) (prev : FastpathEntry) :
  raise_parent_cont_fastpath sp2 (raise_parent_cont_fastpath sp1 prev)
  = raise_parent_cont_fastpath sp1 (raise_parent_cont_fastpath sp2 prev).
Proof.
  apply FastpathEntry_eq.
  - rewrite !raise_parent_cont_fastpath_entry. reflexivity.
  - rewrite !raise_parent_cont_fastpath_value. lia.
Qed.

Lemma raise_parent_cont_fastpath_idem (sp : address) (prev : FastpathEntry) :
  raise_parent_cont_fastpath sp (raise_parent_cont_fastpath sp prev)
  = raise_parent_cont_fastpath sp prev.
Proof.
  apply FastpathEntry_eq.
  - rewrite !raise_parent_cont_fastpath_entry. reflexivity.
  - rewrite !raise_parent_cont_fastpath_value. lia.
Qed.

Lemma fastpath_raised_refl (chain : list FastpathEntry) : fastpath_raised chain chain.
Proof.
  unfold fastpath_raised. induction chain as [|e chain IH].
  - constructor.
  - constructor; [split; [reflexivity|lia]|exact IH].
Qed.

(** The loop hands back [prev] and the entries after it, each with the
    [ContinuationEntry] it had. *)
Lemma notify_deopt_loop_shape (sp : address) (prev : FastpathEntry)
  (entry : list FastpathEntry) :
  exists prev' rest,
    notify_deopt_loop sp prev entry = prev' :: rest /\
    fp_entry prev' = fp_entry prev /\
    fastpath_raised (prev :: entry) (prev' :: rest).
Proof.
  revert prev. induction entry as [|e parent IH]; intros prev; simpl.
  - exists prev, []. split; [reflexivity|]. split; [reflexivity|].
    apply fastpath_raised_refl.
  - destruct (is_sp_in_continuation (fp_entry e) sp).
    + exists (raise_parent_cont_fastpath sp prev), (e :: parent).
      split; [reflexivity|]. split; [apply raise_parent_cont_fastpath_entry|].
      constructor.
      * split; [apply raise_parent_cont_fastpath_entry|].
        rewrite raise_parent_cont_fastpath_value. lia.
      * apply fastpath_raised_refl.
    + destruct (IH e) as (e' & rest & Heq & Hent & Hraised).
      exists prev, (e' :: rest). rewrite Heq.
      split; [reflexivity|]. split; [reflexivity|].
      constructor; [split; [reflexivity|lia]|exact Hraised].
Qed.

Lemma notify_deopt_loop_comm (sp1 sp2 : address) (prev : FastpathEntry)
  (entry : list FastpathEntry) :
  match notify_deopt_loop sp1 prev entry with
  | [] => []
  | p :: r => notify_deopt_loop sp2 p r
  end =
  match notify_deopt_loop sp2 prev entry with
  | [] => []
  | p :: r => notify_deopt_loop sp1 p r
  end.
Proof.
  revert prev. induction entry as [|e parent IH]; intros prev; simpl.
  - reflexivity.
  - destruct (is_sp_in_continuation (fp_entry e) sp1) eqn:H1;
      destruct (is_sp_in_continuation (fp_entry e) sp2) eqn:H2; simpl;
      rewrite ?H1, ?H2.
    + rewrite raise_parent_cont_fastpath_comm. reflexivity.
    + destruct (notify_deopt_loop_shape sp2 e parent) as (e' & rest & -> & Hent & _).
      simpl. rewrite Hent, H1. reflexivity.
    + destruct (notify_deopt_loop_shape sp1 e parent) as (e' & rest & -> & Hent & _).
      simpl. rewrite Hent, H2. reflexivity.
    + specialize (IH e).
      destruct (notify_deopt_loop_shape sp1 e parent) as (e1 & r1 & Heq1 & Hent1 & _).
      destruct (notify_deopt_loop_shape sp2 e parent) as (e2 & r2 & Heq2 & Hent2 & _).
      rewrite Heq1, Heq2 in *. simpl.
      rewrite Hent1, Hent2, H1, H2. rewrite IH. reflexivity.
Qed.

Lemma notify_deopt_loop_idem (sp : address) (prev : FastpathEntry)
  (entry : list FastpathEntry) :
  match notify_deopt_loop sp prev entry with
  | [] => []
  | p :: r => notify_deopt_loop sp p r
  end = notify_deopt_loop sp prev entry.
Proof.
  revert prev. induction entry as [|e parent IH]; intros prev; simpl.
  - reflexivity.
  - destruct (is_sp_in_continuation (fp_entry e) sp) eqn:Hin; simpl.
    + rewrite Hin, raise_parent_cont_fastpath_idem. reflexivity.
    + specialize (IH e).
      destruct (notify_deopt_loop_shape sp e parent) as (e' & rest & Heq & Hent & _).
      rewrite Heq in *. simpl. rewrite Hent, Hin, IH. reflexivity.
Qed.

(** X5.  A deoptimization notice never adds, drops or reorders entries
    and never lowers a [parent_cont_fastpath]; it calls
    [push_cont_fastpath] (with [sp]) exactly when the thread has an
    innermost entry and [sp] lies in it, and then writes no entry. *)
Theorem notify_deopt_keeps_chain (chain : list FastpathEntry) (sp : address) :
  fastpath_raised chain (fst (notify_deopt chain sp)) /\
  (snd (notify_deopt chain sp) = Some sp <->
   exists entry parent,
     chain = entry :: parent /\ is_sp_in_continuation (fp_entry entry) sp = true) /\
  (snd (notify_deopt chain sp) <> None -> fst (notify_deopt chain sp) = chain).
Proof.
  unfold notify_deopt. destruct chain as [|entry parent]; simpl.
  - split; [constructor|]. split; [|congruence].
    split; [discriminate|]. intros (? & ? & ? & _). discriminate.
  - destruct (is_sp_in_continuation (fp_entry entry) sp) eqn:Hin; simpl.
    + split; [apply fastpath_raised_refl|]. split; [|reflexivity].
      split; [eauto|reflexivity].
    + split.
      * destruct (notify_deopt_loop_shape sp entry parent) as (e' & rest & -> & _ & H).
        exact H.
      * split; [|congruence]. split; [discriminate|].
        intros (e0 & p0 & [= <- <-] & Hin'). congruence.
Qed.

(** X6.  Repeating a deoptimization notice for the same sp changes
    nothing more: the chain after the second notice is the chain after
    the first, and the same call of [push_cont_fastpath] is made. *)
Theorem notify_deopt_idempotent (chain : list FastpathEntry) (sp : address) :
  notify_deopt (fst (notify_deopt chain sp)) sp = notify_deopt chain sp.
Proof.
  unfold notify_deopt. destruct chain as [|entry parent]; simpl; [reflexivity|].
  destruct (is_sp_in_continuation (fp_entry entry) sp) eqn:Hin; simpl.
  - rewrite Hin. reflexivity.
  - pose proof (notify_deopt_loop_idem sp entry parent) as Hidem.
    destruct (notify_deopt_loop_shape sp entry parent) as (e' & rest & Heq & Hent & _).
    rewrite Heq in *. rewrite Hent, Hin, Hidem. reflexivity.
Qed.

(** X7.  Two deoptimization notices can be delivered in either order:
    the chain that results is the same. *)
Theorem notify_deopt_commutes (chain : list FastpathEntry) (sp1 sp2 : address) :
  fst (notify_deopt (fst (notify_deopt chain sp1)) sp2)
  = fst (notify_deopt (fst (notify_deopt chain sp2)) sp1).
Proof.
  unfold notify_deopt. destruct chain as [|entry parent]; simpl; [reflexivity|].
  pose proof (notify_deopt_loop_comm sp1 sp2 entry parent) as Hcomm.
  destruct (notify_deopt_loop_shape sp1 entry parent) as (e1 & r1 & Heq1 & Hent1 & _).
  destruct (notify_deopt_loop_shape sp2 entry parent) as (e2 & r2 & Heq2 & Hent2 & _).
  rewrite Heq1, Heq2 in Hcomm.
  destruct (is_sp_in_continuation (fp_entry entry) sp1) eqn:H1;
    destruct (is_sp_in_continuation (fp_entry entry) sp2) eqn:H2; simpl;
    rewrite ?H1, ?H2; simpl; try reflexivity.
  - rewrite Heq2. simpl. rewrite Hent2, H1. reflexivity.
  - rewrite Heq1. simpl. rewrite Hent1, H2. reflexivity.
  - rewrite Heq1, Heq2. simpl. rewrite Hent1, Hent2, H1, H2. exact Hcomm.
Qed.

Lemma notify_deopt_loop_miss (sp : address) (prev : FastpathEntry)
  (entry : list FastpathEntry) :
  Forall (fun x => is_sp_in_continuation (fp_entry x) sp = false) entry ->
  notify_deopt_loop sp prev entry = prev :: entry.
Proof.
  revert prev. induction entry as [|e parent IH]; intros prev Hall; simpl.
  - reflexivity.
  - inversion Hall as [|? ? He Hrest]; subst. rewrite He, IH; auto.
Qed.

Lemma notify_deopt_loop_hit (sp : address) (pre : list FastpathEntry)
  (first prev e : FastpathEntry) (post : list FastpathEntry) :
  Forall (fun x => is_sp_in_continuation (fp_entry x) sp = false) pre ->
  is_sp_in_continuation (fp_entry prev) sp = false ->
  is_sp_in_continuation (fp_entry e) sp = true ->
  notify_deopt_loop sp first (pre ++ prev :: e :: post)
  = first :: pre ++ raise_parent_cont_fastpath sp prev :: e :: post.
Proof.
  revert first. induction pre as [|q pre IH]; intros first Hpre Hprev He; simpl.
  - rewrite Hprev, He. reflexivity.
  - inversion Hpre as [|? ? Hq Hrest]; subst. rewrite Hq, IH; auto.
Qed.

(** X8.  What a deoptimization notice writes: nothing when no entry of
    the chain contains [sp]; otherwise, when the first entry that
    contains [sp] is not the innermost one, only the entry just inside
    it, whose [parent_cont_fastpath] becomes the larger of its old
    value and [sp]. *)
Theorem notify_deopt_raises_child (chain : list FastpathEntry) (sp : address) :
  (Forall (fun x => is_sp_in_continuation (fp_entry x) sp = false) chain ->
   notify_deopt chain sp = (chain, None)) /\
  (forall pre prev e post,
     chain = pre ++ prev :: e :: post ->
     Forall (fun x => is_sp_in_continuation (fp_entry x) sp = false) pre ->
     is_sp_in_continuation (fp_entry prev) sp = false ->
     is_sp_in_continuation (fp_entry e) sp = true ->
     notify_deopt chain sp
       = (pre ++ raise_parent_cont_fastpath sp prev :: e :: post, None) /\
     parent_cont_fastpath (raise_parent_cont_fastpath sp prev)
       = N.max (parent_cont_fastpath prev) sp).
Proof.
  split.
  - intros Hall. unfold notify_deopt. destruct chain as [|entry parent]; [reflexivity|].
    inversion Hall as [|? ? He Hrest]; subst. rewrite He.
    rewrite notify_deopt_loop_miss; auto.
  - intros pre prev e post -> Hpre Hprev He.
    split; [|apply raise_parent_cont_fastpath_value].
    unfold notify_deopt. destruct pre as [|first pre]; simpl.
    + rewrite Hprev, He. reflexivity.
    + inversion Hpre as [|? ? Hfirst Hrest]; subst. rewrite Hfirst.
      rewrite notify_deopt_loop_hit; auto.
Qed.

(** * More on the orchestrator *)

Lemma trace_extension_nil (vm : VM) (evs : list Event) :
  trace vm = trace vm ++ evs -> evs = [].
Proof.
  intros Htr. rewrite <- (app_nil_r (trace vm)) in Htr at 1.
  apply app_inv_head in Htr. auto.
Qed.

Lemma is_continuation_done_not_null (h : gmap N HeapObj) (continuation : oop) (b : bool) :
  is_continuation_done h continuation = Some b -> continuation <> nullptr.
Proof.
  unfold is_continuation_done, jdk_internal_vm_Continuation.done,
    load_continuation, load.
  intros Hdone ->. simpl in Hdone. discriminate.
Qed.

(** X11.  A request for a continuation that the mount query does not
    report as mounted on the target is answered [freeze_not_mounted]
    and changes nothing. *)
Theorem try_preempt_requires_mounted (continuation : oop) (vm : VM) (r : Z) (vm' : VM) :
  try_preempt continuation vm = Some (r, vm') ->
  is_continuation_mounted (Some (target (world vm))) continuation = false ->
  r = freeze_not_mounted /\ vm' = vm.
Proof.
  intros Hrun Hnot.
  apply try_preempt_paths in Hrun as [(-> & -> & _)|Hmounted]; [auto|].
  exfalso. destruct Hmounted as (ce & parents & sc & Hch & Hc & Hdone & _).
  apply is_continuation_done_not_null in Hdone.
  revert Hnot.
  unfold is_continuation_mounted, is_on_stack, get_continuation_entry_for_continuation.
  destruct (N.eqb_spec continuation nullptr); [contradiction|].
  rewrite Hch. simpl. rewrite Hc, N.eqb_refl. discriminate.
Qed.

(** What a run that called the freeze entry point leaves behind. *)
Lemma try_preempt_frozen_facts (continuation : oop) (vm : VM) (r : Z) (vm' : VM)
  (evs : list Event) (sp : address) (res : Z) :
  try_preempt continuation vm = Some (r, vm') ->
  trace vm' = trace vm ++ evs ->
  In (Ev_freeze_preempt_entry sp res) evs ->
  r = res /\
  (runtime_keeps_preempting -> preempting (target (world vm')) = (res =? freeze_ok)) /\
  fail_counter vm' =
    (if res =? freeze_ok then fail_counter vm else uint64_incr (fail_counter vm)).
Proof.
  intros Hrun Htr Hin.
  apply try_preempt_cases in Hrun as [[-> _]|Hd].
  { apply trace_extension_nil in Htr. subst evs. destruct Hin. }
  destruct Hd as (ce & parents & sc & _ & _ & _ & _ & _ & Hd).
  apply try_preempt_dispatch_outcome in Hd.
  destruct Hd as [evs' _ Htr' Hno _|sp' begun w Hbegun _ Htr' Hfc Hflag].
  { rewrite Htr' in Htr. apply app_inv_head in Htr. subst evs'.
    exfalso. exact (Hno _ _ Hin). }
  rewrite Htr' in Htr. apply app_inv_head in Htr. subst evs.
  assert (Hsame : r = res).
  { destruct Hbegun as [->| ->]; simpl in Hin; unfold closing_events in Hin.
    - destruct Hin as [[= -> ->]|[]]. auto.
    - destruct (r =? freeze_ok);
        destruct Hin as [?|[[= -> ->]|[?|[]]]]; try discriminate; auto. }
  subst r. auto.
Qed.

(** X12.  No second freeze: after a request whose freeze returned
    [freeze_ok] (the collaborators leaving the [preempting] flag
    alone), any further request on that target, for whatever
    continuation, is refused with [freeze_not_mounted] or
    [freeze_pinned_native] and changes nothing; the freeze entry point
    is not called again. *)
Theorem try_preempt_no_second_freeze (continuation : oop) (vm : VM) (r : Z) (vm1 : VM)
  (evs : list Event) (sp : address) :
  runtime_keeps_preempting ->
  try_preempt continuation vm = Some (r, vm1) ->
  trace vm1 = trace vm ++ evs ->
  In (Ev_freeze_preempt_entry sp freeze_ok) evs ->
  forall continuation2 r2 vm2,
    try_preempt continuation2 vm1 = Some (r2, vm2) ->
    vm2 = vm1 /\ (r2 = freeze_not_mounted \/ r2 = freeze_pinned_native).
Proof.
  intros Hkeep Hrun Htr Hin continuation2 r2 vm2 Hrun2.
  destruct (try_preempt_frozen_facts _ _ _ _ _ _ _ Hrun Htr Hin) as (_ & Hflag & _).
  specialize (Hflag Hkeep). rewrite Z.eqb_refl in Hflag.
  apply try_preempt_paths in Hrun2 as [(-> & -> & _)|Hm]; [auto|].
  destruct Hm as (ce & parents & sc & _ & _ & _ & _ & [(-> & -> & _)|[Hsafe _]]); [auto|].
  unfold is_safe_to_preempt in Hsafe. rewrite Hflag in Hsafe. discriminate.
Qed.

Lemma is_safe_to_preempt_defined (w : World) (continuation : oop) (is_vthread : bool) :
  Interpreter_contains cc (last_Java_pc (target w)) = true \/
    is_Some (CodeCache_find_blob cc (last_Java_pc (target w))) ->
  is_Some (load_thread (heap w) (vthread (target w))) ->
  is_Some (is_safe_to_preempt w continuation is_vthread).
Proof.
  intros Hpc [th Hth]. unfold is_safe_to_preempt.
  destruct (preempting (target w)); [eauto|].
  destruct (has_last_Java_frame (target w)); simpl; [|eauto].
  destruct (has_pending_exception (target w)); [eauto|].
  apply (is_safe_pc_to_preempt_defined _ (target w)) in Hpc as [safe_pc ->]. simpl.
  destruct safe_pc; simpl; [|eauto].
  destruct is_vthread; [|eauto].
  unfold is_safe_vthread_to_preempt, java_lang_VirtualThread.state,
    java_lang_VirtualThread.is_preemption_disabled.
  rewrite Hth. simpl.
  destruct (state_field th =? RUNNING); simpl; [|eauto].
  destruct (java_lang_VirtualThread.is_instance _ _); simpl; [|eauto].
  destruct (preemption_disabled_field th); simpl; [eauto|].
  destruct (if INCLUDE_JVMTI then _ else _); simpl; eauto.
Qed.

(** X13.  A request has a result (no null or ill-typed reference is
    followed) as soon as the requested continuation is a Continuation
    object when it is the one on the innermost entry, the target's last
    Java pc lies in the interpreter or in a blob of the code cache, and
    the target's [vthread] is a thread object. *)
Theorem try_preempt_defined (continuation : oop) (vm : VM) :
  (forall ce parents,
     last_continuation (target (world vm)) = ce :: parents ->
     cont_oop ce = continuation ->
     is_Some (load_continuation (heap (world vm)) continuation)) ->
  Interpreter_contains cc (last_Java_pc (target (world vm))) = true \/
    is_Some (CodeCache_find_blob cc (last_Java_pc (target (world vm)))) ->
  is_Some (load_thread (heap (world vm)) (vthread (target (world vm)))) ->
  is_Some (try_preempt continuation vm).
Proof.
  intros Hcont Hpc Hvt. unfold try_preempt.
  destruct (last_continuation (target (world vm))) as [|ce parents] eqn:Hch; [eauto|].
  simpl. destruct (N.eqb_spec (cont_oop ce) continuation) as [Hc|Hc]; simpl; [|eauto].
  destruct (Hcont ce parents eq_refl Hc) as [obj Hobj].
  assert (Hnz : continuation <> nullptr).
  { intros ->. unfold load_continuation, load in Hobj. simpl in Hobj. discriminate. }
  unfold is_continuation_done, continuation_scope, jdk_internal_vm_Continuation.done,
    jdk_internal_vm_Continuation.scope.
  rewrite Hc, Hobj. simpl.
  destruct (done_field obj); [eauto|].
  destruct (N.eqb_spec continuation nullptr); [contradiction|]. simpl.
  destruct (is_safe_to_preempt_defined (world vm) continuation
              (scope_field obj =? vthread_scope (world vm))%N Hpc Hvt) as [safe ->].
  simpl. destruct safe; simpl; eauto.
Qed.

Lemma filter_no_freeze (evs : list Event) :
  (forall sp res, ~ In (Ev_freeze_preempt_entry sp res) evs) ->
  List.filter is_freeze_event evs = [].
Proof.
  induction evs as [|ev evs IH]; intros Hno; simpl; [reflexivity|].
  destruct ev as [ok|sp res| |]; simpl;
    try (apply IH; intros sp' res' Hin; apply (Hno sp' res'); right; exact Hin).
  exfalso. apply (Hno sp res). left. reflexivity.
Qed.

Lemma uint64_incr_range (c : Z) : 0 <= uint64_incr c < uint64_modulus.
Proof.
  unfold uint64_incr. apply Z.mod_pos_bound. reflexivity.
Qed.

(** One request: the trace grows by at most one call of the freeze
    entry point, the counter stays a 64-bit value and moves only if
    that call was made. *)
Lemma try_preempt_step (continuation : oop) (vm : VM) (r : Z) (vm' : VM) :
  try_preempt continuation vm = Some (r, vm') ->
  exists evs,
    trace vm' = trace vm ++ evs /\
    (length (List.filter is_freeze_event evs) <= 1)%nat /\
    (0 <= fail_counter vm < uint64_modulus -> 0 <= fail_counter vm' < uint64_modulus) /\
    (List.filter is_freeze_event evs = [] -> fail_counter vm' = fail_counter vm).
Proof.
  intros Hrun. apply try_preempt_cases in Hrun as [[-> _]|Hd].
  { exists []. rewrite app_nil_r. simpl. auto. }
  destruct Hd as (ce & parents & sc & _ & _ & _ & _ & _ & Hd).
  apply try_preempt_dispatch_outcome in Hd.
  destruct Hd as [evs _ Htr Hno Hfc|sp begun w Hbegun _ Htr Hfc _].
  - exists evs. rewrite (filter_no_freeze _ Hno), Hfc. simpl. auto.
  - eexists. split; [exact Htr|]. rewrite Hfc.
    destruct Hbegun as [->| ->]; unfold closing_events; simpl;
      destruct (r =? freeze_ok); simpl;
      (split; [lia|]); (split; [|discriminate]);
      intros; try assumption; apply uint64_incr_range.
Qed.

(** X14.  [n] attempts give [n] statuses; the calls they made are
    appended to the trace, with at most [n] calls of the freeze entry
    point among them; the failure counter stays a 64-bit value and
    is unchanged when the freeze entry point was never called. *)
Theorem try_preempt_retry_invariants (n : nat) (continuation : oop) (vm : VM)
  (rs : list Z) (vm' : VM) :
  try_preempt_retry n continuation vm = Some (rs, vm') ->
  length rs = n /\
  exists evs,
    trace vm' = trace vm ++ evs /\
    (length (List.filter is_freeze_event evs) <= n)%nat /\
    (0 <= fail_counter vm < uint64_modulus -> 0 <= fail_counter vm' < uint64_modulus) /\
    (List.filter is_freeze_event evs = [] -> fail_counter vm' = fail_counter vm).
Proof.
  revert vm rs vm'. induction n as [|n IH]; intros vm rs vm'; simpl.
  - intros [= <- <-]. split; [reflexivity|]. exists []. rewrite app_nil_r. simpl. auto.
  - destruct (try_preempt continuation vm) as [[r vm1]|] eqn:Hone; [|discriminate].
    destruct (try_preempt_retry n continuation vm1) as [[rest vm2]|] eqn:Hrest;
      [|discriminate].
    intros [= <- <-].
    apply try_preempt_step in Hone as (evs1 & Htr1 & Hlen1 & Hrange1 & Hsame1).
    apply IH in Hrest as (Hlen & evs2 & Htr2 & Hlen2 & Hrange2 & Hsame2).
    split; [simpl; congruence|].
    exists (evs1 ++ evs2). rewrite Htr2, Htr1, <- app_assoc.
    split; [reflexivity|]. rewrite List.filter_app, List.length_app.
    split; [lia|]. split; [auto|].
    intros Hnone. apply app_eq_nil in Hnone as [Hn1 Hn2].
    rewrite (Hsame2 Hn2). auto.
Qed.

(** X22.  While the safety predicates keep evaluating to false, every
    attempt of a retrying caller is answered [freeze_pinned_native] and
    the state, failure counter included, stays the one it started
    from. *)
Theorem try_preempt_retry_unsafe (continuation : oop) (vm : VM)
  (ce : ContinuationEntry) (parents : list ContinuationEntry) (sc : oop) :
  last_continuation (target (world vm)) = ce :: parents ->
  cont_oop ce = continuation ->
  is_continuation_done (heap (world vm)) continuation = Some false ->
  continuation_scope (heap (world vm)) continuation = Some sc ->
  is_safe_to_preempt (world vm) continuation (sc =? vthread_scope (world vm))%N
    = Some false ->
  forall n,
    try_preempt_retry n continuation vm = Some (repeat freeze_pinned_native n, vm).
Proof.
  intros Hch Hc Hdone Hsc Hsafe.
  assert (Hone : try_preempt continuation vm = Some (freeze_pinned_native, vm)).
  { unfold try_preempt. rewrite Hch. simpl. rewrite Hc, N.eqb_refl. simpl.
    rewrite Hdone. simpl. rewrite Hsc. simpl. rewrite Hsafe. reflexivity. }
  induction n as [|n IH]; simpl; [reflexivity|].
  rewrite Hone, IH. reflexivity.
Qed.

(** X15.  In a JVMTI build, when the request passed the safety
    predicates for a virtual thread's continuation but the unmount
    transition cannot be started, the answer is [freeze_pinned_native]:
    the only call made is the failed [start_VTMS_transition], the
    freeze entry point is not called, the [preempting] flag is not
    written, the counter is unchanged and nothing is rolled back. *)
Theorem try_preempt_transition_refused (continuation : oop) (vm : VM)
  (ce : ContinuationEntry) (parents : list ContinuationEntry) (w : World) :
  INCLUDE_JVMTI = true ->
  freeze_pinned_native <> freeze_ok ->
  last_continuation (target (world vm)) = ce :: parents ->
  cont_oop ce = continuation ->
  is_continuation_done (heap (world vm)) continuation = Some false ->
  continuation_scope (heap (world vm)) continuation = Some (vthread_scope (world vm)) ->
  is_safe_to_preempt (world vm) continuation true = Some true ->
  notify_jvmti_events (world vm) = true ->
  start_VTMS_transition rt (vthread (target (world vm))) false (world vm) = (false, w) ->
  try_preempt continuation vm
  = Some (freeze_pinned_native,
          mkVM w (fail_counter vm) (trace vm ++ [Ev_start_VTMS_transition false])).
Proof.
  intros Hjvmti Hne Hch Hc Hdone Hsc Hsafe Hnotify Hstart.
  unfold try_preempt. rewrite Hch. simpl. rewrite Hc, N.eqb_refl. simpl.
  rewrite Hdone. simpl. rewrite Hsc. simpl. rewrite N.eqb_refl, Hsafe. simpl.
  unfold try_preempt_dispatch, JvmtiUnmountBeginMark_ctor. rewrite Hjvmti. simpl.
  rewrite Hnotify, Hstart. simpl.
  unfold JvmtiUnmountBeginMark_dtor. simpl.
  apply Z.eqb_neq in Hne. rewrite Hne. reflexivity.
Qed.

Lemma try_preempt_dispatch_plain (is_vthread : bool) (vm : VM) :
  INCLUDE_JVMTI = false \/ notify_jvmti_events (world vm) = false \/ is_vthread = false ->
  try_preempt_dispatch is_vthread vm = try_preempt_freeze vm.
Proof.
  intros Hplain. unfold try_preempt_dispatch.
  destruct INCLUDE_JVMTI; [|reflexivity].
  unfold JvmtiUnmountBeginMark_ctor.
  destruct is_vthread; simpl.
  - destruct (notify_jvmti_events (world vm)).
    + destruct Hplain as [?|[?|?]]; discriminate.
    + destruct (try_preempt_freeze vm) as [res vm2].
      unfold JvmtiUnmountBeginMark_dtor. reflexivity.
  - destruct (try_preempt_freeze vm) as [res vm2].
    unfold JvmtiUnmountBeginMark_dtor. reflexivity.
Qed.

(** X18.  No JVMTI entry point is called for a request in a build
    without JVMTI, or while [notify_jvmti_events()] is off, or for a
    continuation whose scope is not the virtual-thread scope: the only
    call such a request can make is the one of the freeze entry
    point. *)
Theorem try_preempt_without_transition (continuation : oop) (vm : VM) (r : Z) (vm' : VM)
  (evs : list Event) :
  try_preempt continuation vm = Some (r, vm') ->
  trace vm' = trace vm ++ evs ->
  INCLUDE_JVMTI = false \/ notify_jvmti_events (world vm) = false \/
    continuation_scope (heap (world vm)) continuation
      <> Some (vthread_scope (world vm)) ->
  evs = [] \/ evs = [Ev_freeze_preempt_entry (last_Java_sp (target (world vm))) r].
Proof.
  intros Hrun Htr Hplain.
  apply try_preempt_cases in Hrun as [[-> _]|Hd].
  { left. eapply trace_extension_nil; eauto. }
  destruct Hd as (ce & parents & sc & _ & _ & _ & Hsc & _ & Hd).
  rewrite try_preempt_dispatch_plain in Hd.
  - apply try_preempt_freeze_outcome in Hd as (_ & Htr' & _).
    rewrite Htr' in Htr. apply app_inv_head in Htr. auto.
  - destruct Hplain as [?|[?|Hscope]]; auto.
    right. right. apply N.eqb_neq. intros ->. apply Hscope. exact Hsc.
Qed.

(** X10.  [CONT_tryPreempt0] answers [freeze_not_mounted] and changes
    nothing when the target thread is not alive, or has no innermost
    entry, another continuation mounted or a finished one; and any
    request calls the freeze entry point at most once. *)
Theorem CONT_tryPreempt0_spec (jcont : oop) (is_alive : bool) (vm : VM) :
  (is_alive = false \/ not_mounted_or_done jcont vm ->
   CONT_tryPreempt0 jcont is_alive vm = Some (freeze_not_mounted, vm)) /\
  (forall r vm',
     CONT_tryPreempt0 jcont is_alive vm = Some (r, vm') ->
     exists evs,
       trace vm' = trace vm ++ evs /\
       (length (List.filter is_freeze_event evs) <= 1)%nat).
Proof.
  unfold CONT_tryPreempt0. split.
  - intros Hcase. destruct is_alive; [|reflexivity].
    destruct Hcase as [?|Hnm]; [discriminate|].
    unfold not_mounted_or_done in Hnm. unfold try_preempt.
    destruct (last_continuation (target (world vm))) as [|ce parents]; [reflexivity|].
    simpl. destruct (N.eqb_spec (cont_oop ce) jcont) as [Heq|Hne]; simpl; [|reflexivity].
    destruct Hnm as [?|Hdone]; [contradiction|]. rewrite Hdone. reflexivity.
  - intros r vm'. destruct is_alive.
    + intros Hrun. apply try_preempt_step in Hrun as (evs & Htr & Hlen & _). eauto.
    + intros [= <- <-]. exists []. rewrite app_nil_r. simpl. auto.
Qed.

(** * More on the safety predicates and on pinning *)

(** X17.  [is_safe_to_preempt] answers true exactly when all the
    conditions of the list hold and, for a virtual thread's
    continuation, the target's [vthread] is an instance of
    VirtualThread. *)
Theorem is_safe_to_preempt_true_iff (w : World) (continuation : oop) (is_vthread : bool) :
  is_safe_to_preempt w continuation is_vthread = Some true <->
  safety_conditions w is_vthread /\
  (is_vthread = true ->
   java_lang_VirtualThread.is_instance (heap w) (vthread (target w)) = true).
Proof.
  split.
  - intros Hsafe. split; [eapply is_safe_to_preempt_true; eauto|].
    intros ->. revert Hsafe. unfold is_safe_to_preempt.
    destruct (preempting (target w)); [discriminate|].
    destruct (has_last_Java_frame (target w)); simpl; [|discriminate].
    destruct (has_pending_exception (target w)); [discriminate|].
    destruct (is_safe_pc_to_preempt _ _) as [[|]|]; simpl; try discriminate.
    destruct (is_safe_vthread_to_preempt w continuation) as [[|]|] eqn:Hvt;
      simpl; try discriminate.
    intros _. apply is_safe_vthread_to_preempt_true in Hvt. tauto.
  - intros [(Hpre & Hframe & Hexc & Hpc & Hvt) Hinst].
    unfold is_safe_to_preempt. rewrite Hpre, Hframe, Hexc, Hpc. simpl.
    destruct is_vthread; [|reflexivity].
    destruct (Hvt eq_refl) as (Hstate & Hdis & Hwin).
    unfold is_safe_vthread_to_preempt.
    rewrite Hstate, (Hinst eq_refl), Hdis. simpl. rewrite Z.eqb_refl. simpl.
    revert Hwin. unfold in_debugger_window, is_safe_vthread_to_preempt_for_jvmti.
    destruct INCLUDE_JVMTI; simpl; [|reflexivity].
    destruct (notify_jvmti_events w); simpl; [|reflexivity].
    destruct (is_in_VTMS_transition (target w)); simpl; [discriminate|].
    destruct (is_suspended (target w)); simpl; [discriminate|reflexivity].
Qed.

(** X19.  The classifier's answer does not depend on the thread it is
    given, and it has no answer exactly when the pc is outside the
    interpreter and the code cache finds no blob for it. *)
Theorem is_safe_pc_to_preempt_result (pc : address) (t t' : JavaThread) :
  is_safe_pc_to_preempt pc t = is_safe_pc_to_preempt pc t' /\
  (is_safe_pc_to_preempt pc t = None <->
   Interpreter_contains cc pc = false /\ CodeCache_find_blob cc pc = None).
Proof.
  split; [reflexivity|].
  pose proof (is_safe_pc_to_preempt_defined pc t) as Hdef.
  destruct (is_safe_pc_to_preempt pc t) as [b|].
  - split; [discriminate|]. intros [Hi Hb].
    destruct (proj1 Hdef (ex_intro _ b eq_refl)) as [Hc|[cb Hcb]]; congruence.
  - split; [intros _|reflexivity].
    destruct (Interpreter_contains cc pc) eqn:Hi.
    + destruct (proj2 Hdef (or_introl eq_refl)) as [? ?]. discriminate.
    + destruct (CodeCache_find_blob cc pc) as [cb|] eqn:Hb; [|auto].
      destruct (proj2 Hdef (or_intror (ex_intro _ cb eq_refl))) as [? ?]. discriminate.
Qed.

Lemma pin_keeps_other_fields (current : JavaThread) :
  set_last_continuation (last_continuation current) (snd (pin current)) = current /\
  set_last_continuation (last_continuation current) (snd (unpin current)) = current.
Proof.
  unfold pin, unpin, ContinuationEntry_pin, ContinuationEntry_unpin.
  destruct current as [chain ? ? ? ? ? ? ? ? ? ? ? ?]; simpl.
  destruct chain as [|ce parents]; simpl; [auto|].
  destruct (_ <? _); destruct (_ =? _); simpl; auto.
Qed.

(** X16.  The safety predicates do not look at the entry chain: their
    verdict is the same after the target pinned or unpinned its
    continuation, whatever the pin count became. *)
Theorem is_safe_to_preempt_ignores_pins (w : World) (continuation : oop)
  (is_vthread : bool) :
  is_safe_to_preempt (with_target (snd (pin (target w))) w) continuation is_vthread
    = is_safe_to_preempt w continuation is_vthread /\
  is_safe_to_preempt (with_target (snd (unpin (target w))) w) continuation is_vthread
    = is_safe_to_preempt w continuation is_vthread.
Proof.
  destruct w as [[chain ? ? ? ? ? ? ? ? ? ? ? ?] h notify vscope].
  unfold pin, unpin, ContinuationEntry_pin, ContinuationEntry_unpin. simpl.
  destruct chain as [|ce parents]; simpl; [split; reflexivity|].
  destruct (_ <? _); destruct (_ =? _); split; reflexivity.
Qed.

(** X20.  [pin] and [unpin] write nothing but the pin count of the
    innermost entry: the rest of the thread, the entries below the
    innermost one and every other member of the innermost entry are
    left as they were, and a refused call leaves the whole thread as it
    was. *)
Theorem pin_writes_innermost_count_only (current : JavaThread) :
  (set_last_continuation (last_continuation current) (snd (pin current)) = current /\
   tl (last_continuation (snd (pin current))) = tl (last_continuation current) /\
   map (set_pin_count 0) (last_continuation (snd (pin current)))
     = map (set_pin_count 0) (last_continuation current) /\
   (fst (pin current) = false -> snd (pin current) = current)) /\
  (set_last_continuation (last_continuation current) (snd (unpin current)) = current /\
   tl (last_continuation (snd (unpin current))) = tl (last_continuation current) /\
   map (set_pin_count 0) (last_continuation (snd (unpin current)))
     = map (set_pin_count 0) (last_continuation current) /\
   (fst (unpin current) = false -> snd (unpin current) = current)).
Proof.
  destruct (pin_keeps_other_fields current) as [Hpin Hunpin].
  split; (split; [assumption|]).
  - unfold pin, ContinuationEntry_pin.
    destruct current as [chain ? ? ? ? ? ? ? ? ? ? ? ?]; simpl.
    destruct chain as [|ce parents]; simpl; [auto|].
    destruct (_ <? _); simpl; repeat split; auto; discriminate.
  - unfold unpin, ContinuationEntry_unpin.
    destruct current as [chain ? ? ? ? ? ? ? ? ? ? ? ?]; simpl.
    destruct chain as [|ce parents]; simpl; [auto|].
    destruct (_ =? _); simpl; repeat split; auto; discriminate.
Qed.

(** X21.  With every pin count between zero and the maximum, [pin] and
    [unpin] keep it so, an [unpin] after a successful [pin] succeeds
    and restores the thread, and a [pin] after a successful [unpin]
    does the same. *)
Theorem pin_unpin_round_trip (current : JavaThread) :
  pin_counts_in_range current ->
  pin_counts_in_range (snd (pin current)) /\
  pin_counts_in_range (snd (unpin current)) /\
  (forall t1, pin current = (true, t1) -> unpin t1 = (true, current)) /\
  (forall t1, unpin current = (true, t1) -> pin t1 = (true, current)).
Proof.
  unfold pin_counts_in_range, pin, unpin, ContinuationEntry_pin, ContinuationEntry_unpin.
  destruct current as [chain ? ? ? ? ? ? ? ? ? ? ? ?]; simpl.
  destruct chain as [|ce parents]; simpl.
  - intros _. repeat split; auto; intros t1 [= <-]; reflexivity.
  - intros Hrange. inversion Hrange as [|? ? Hce Hrest]; subst.
    destruct ce as [adr c n esp epc]; simpl in *.
    destruct (Z.ltb_spec PIN_COUNT_MAX (n + 1));
      destruct (Z.eqb_spec n 0); simpl;
      repeat split; auto;
      try (constructor; simpl; [lia|assumption]);
      try discriminate;
      intros t1 [= <-]; simpl; unfold set_pin_count; simpl.
    all: try (destruct (Z.eqb_spec (n + 1) 0); [lia|]).
    all: try (destruct (Z.ltb_spec PIN_COUNT_MAX (n - 1 + 1)); [lia|]).
    all: simpl; unfold set_pin_count; simpl;
      rewrite ?Z.add_simpl_r, ?Z.sub_add; reflexivity.
Qed.

Lemma try_preempt_dispatch_sequences (is_vthread : bool) (vm : VM) (r : Z) (vm' : VM) :
  freeze_pinned_native <> freeze_ok ->
  try_preempt_dispatch is_vthread vm = (r, vm') ->
  exists evs,
    trace vm' = trace vm ++ evs /\
    (evs = [Ev_start_VTMS_transition false] \/
     (exists sp, evs = [Ev_freeze_preempt_entry sp r]) \/
     (exists sp, r <> freeze_ok /\
                 evs = [Ev_start_VTMS_transition true; Ev_freeze_preempt_entry sp r;
                        Ev_finish_VTMS_transition]) \/
     (exists sp, r = freeze_ok /\
                 evs = [Ev_start_VTMS_transition true; Ev_freeze_preempt_entry sp r;
                        Ev_rebind_to_jvmti_thread_state_of])).
Proof.
  intros Hne. apply Z.eqb_neq in Hne.
  unfold try_preempt_dispatch, JvmtiUnmountBeginMark_ctor, JvmtiUnmountBeginMark_dtor.
  destruct INCLUDE_JVMTI.
  - destruct is_vthread; simpl.
    + destruct (notify_jvmti_events (world vm)).
      * destruct (start_VTMS_transition rt _ _ _) as [[|] w]; simpl.
        -- destruct (try_preempt_freeze _) as [res vm2] eqn:Hfreeze.
           apply try_preempt_freeze_outcome in Hfreeze as (_ & Htr & _).
           simpl in Htr. simpl.
           destruct (Z.eqb_spec res freeze_ok) as [Hok|Hfail]; intros [= <- <-]; simpl;
             rewrite Htr, <- !app_assoc; eexists; (split; [reflexivity|]); simpl; eauto 8.
        -- rewrite Hne. intros [= <- <-]. simpl. eexists. split; [reflexivity|]. auto.
      * destruct (try_preempt_freeze vm) as [res vm2] eqn:Hfreeze.
        apply try_preempt_freeze_outcome in Hfreeze as (_ & Htr & _).
        simpl. intros [= <- <-]. eexists. split; [exact Htr|]. eauto.
    + destruct (try_preempt_freeze vm) as [res vm2] eqn:Hfreeze.
      apply try_preempt_freeze_outcome in Hfreeze as (_ & Htr & _).
      simpl. intros [= <- <-]. eexists. split; [exact Htr|]. eauto.
  - intros Hfreeze.
    apply try_preempt_freeze_outcome in Hfreeze as (_ & Htr & _).
    eexists. split; [exact Htr|]. eauto.
Qed.

(** X23.  The calls one request makes form one of five sequences: none;
    the freeze alone; a transition start that fails; or a successful
    start, the freeze, and then the rollback if the freeze failed or
    the rebinding if it succeeded.  So a transition that was started is
    always closed, exactly once, and nothing is closed that was not
    started. *)
Theorem try_preempt_call_sequences (continuation : oop) (vm : VM) (r : Z) (vm' : VM) :
  freeze_pinned_native <> freeze_ok ->
  try_preempt continuation vm = Some (r, vm') ->
  exists evs,
    trace vm' = trace vm ++ evs /\
    (evs = [] \/
     evs = [Ev_start_VTMS_transition false] \/
     (exists sp, evs = [Ev_freeze_preempt_entry sp r]) \/
     (exists sp, r <> freeze_ok /\
                 evs = [Ev_start_VTMS_transition true; Ev_freeze_preempt_entry sp r;
                        Ev_finish_VTMS_transition]) \/
     (exists sp, r = freeze_ok /\
                 evs = [Ev_start_VTMS_transition true; Ev_freeze_preempt_entry sp r;
                        Ev_rebind_to_jvmti_thread_state_of])).
Proof.
  intros Hne Hrun. apply try_preempt_cases in Hrun as [[-> _]|Hd].
  - exists []. rewrite app_nil_r. auto.
  - destruct Hd as (ce & parents & sc & _ & _ & _ & _ & _ & Hd).
    apply (try_preempt_dispatch_sequences _ _ _ _ Hne) in Hd as (evs & Htr & Hshape).
    exists evs. auto.
Qed.

End Preemption.

(** * The theorems at the sample data

    The build has JVMTI; the constants are given the sample values
    [freeze_ok = 0], [freeze_pinned_native = 3], [freeze_not_mounted = 6]
    and [RUNNING = 2]. *)

(** A request for a continuation that is mounted but done. *)
Lemma try_preempt_not_mounted_witness :
  try_preempt true 0 3 6 2 sample_classifier (sample_runtime 0) sample_done_cont
    (sample_vm (sample_thread sample_done_cont 1000%N))
  = Some (6, sample_vm (sample_thread sample_done_cont 1000%N)) /\
  forall n,
    try_preempt_retry true 0 3 6 2 sample_classifier (sample_runtime 0) n
      sample_done_cont (sample_vm (sample_thread sample_done_cont 1000%N))
    = Some (repeat 6 n, sample_vm (sample_thread sample_done_cont 1000%N)).
Proof.
  apply try_preempt_not_mounted. right. reflexivity.
Defined.

(** A request while the target runs in an nmethod, away from any poll. *)
Lemma try_preempt_unsafe_witness :
  exists vm',
    try_preempt true 0 3 6 2 sample_classifier (sample_runtime 0) sample_cont
      (sample_vm (sample_thread sample_cont 2000%N))
    = Some (3, vm') /\
    vm' = sample_vm (sample_thread sample_cont 2000%N) /\
    last_continuation (target (world vm')) = [sample_entry sample_cont 0] /\
    is_continuation_preempted (heap (world vm')) sample_cont
      = is_continuation_preempted
          (heap (world (sample_vm (sample_thread sample_cont 2000%N)))) sample_cont /\
    trace vm' = trace (sample_vm (sample_thread sample_cont 2000%N)).
Proof.
  apply (try_preempt_unsafe true 0 3 6 2 sample_classifier (sample_runtime 0)
           sample_cont (sample_vm (sample_thread sample_cont 2000%N))
           (sample_entry sample_cont 0) [] sample_scope);
    reflexivity.
Defined.

(** C3 as worded fails: at the safepoint stub the classifier answers
    true for a thread that is itself at a poll safepoint. *)
Lemma is_safe_pc_to_preempt_ignores_poll_state :
  is_safe_pc_to_preempt sample_classifier 1000%N sample_polling_thread = Some true /\
  is_at_poll_safepoint sample_polling_thread = true /\
  safe_pc_spec sample_classifier 1000%N sample_polling_thread = false.
Proof.
  repeat split; reflexivity.
Qed.

(** C4 as worded fails: an entry left on the chain while the thread
    returns from a freeze (last Java sp above the entry's sp) still
    counts as mounted, although it lies within the thread's stack
    bounds and outside its live part. *)
Lemma is_continuation_mounted_stale_entry :
  is_continuation_mounted (Some sample_returning_thread) sample_cont = true /\
  is_mounted_spec (Some sample_returning_thread) sample_cont = false /\
  is_in_full_stack sample_returning_thread
    (entry_address (sample_entry sample_cont 0)) = true.
Proof.
  repeat split; reflexivity.
Qed.

(** C5 as worded fails: a freeze engine that reports status [4] makes
    [try_preempt] return [4], none of the three statuses. *)
Lemma try_preempt_passes_status_through :
  exists vm',
    try_preempt true 0 3 6 2 sample_classifier (sample_runtime 4) sample_cont
      (sample_vm (sample_thread sample_cont 1000%N))
    = Some (4, vm') /\
    4 <> 0 /\ 4 <> 3 /\ 4 <> 6.
Proof.
  eexists. split; [vm_compute; reflexivity|].
  repeat split; discriminate.
Qed.

Lemma try_preempt_status_witness :
  exists vm',
    try_preempt true 0 3 6 2 sample_classifier (sample_runtime 4) sample_cont
      (sample_vm (sample_thread sample_cont 1000%N))
    = Some (4, vm') /\
    ((not_mounted_or_done sample_cont (sample_vm (sample_thread sample_cont 1000%N)) /\
      4 = 6) \/
     (exists ce parents sc,
        last_continuation (sample_thread sample_cont 1000%N) = ce :: parents /\
        cont_oop ce = sample_cont /\
        is_continuation_done sample_heap sample_cont = Some false /\
        continuation_scope sample_heap sample_cont = Some sc /\
        ((is_safe_to_preempt true 2 sample_classifier
            (world (sample_vm (sample_thread sample_cont 1000%N))) sample_cont
            (sc =? sample_scope)%N = Some false /\
          4 = 3) \/
         (is_safe_to_preempt true 2 sample_classifier
            (world (sample_vm (sample_thread sample_cont 1000%N))) sample_cont
            (sc =? sample_scope)%N = Some true /\
          exists begun ok w0,
            debug_transition true (sample_runtime 4) (sc =? sample_scope)%N
              (world (sample_vm (sample_thread sample_cont 1000%N))) begun ok w0 /\
            ((ok = false /\ 4 = 3) \/
             (ok = true /\ 4 = fst (freeze_call (sample_runtime 4) w0))))))).
Proof.
  eexists. split.
  - vm_compute. reflexivity.
  - eapply (try_preempt_status true 0 3 6 2 sample_classifier (sample_runtime 4)
              sample_cont (sample_vm (sample_thread sample_cont 1000%N)) 4).
    vm_compute. reflexivity.
Defined.

(** The snapshot from which the sample freeze is dispatched meets all
    the conditions. *)
Lemma freeze_only_when_safe_witness :
  safety_conditions true 2 sample_classifier
    (world (sample_vm (sample_thread sample_cont 1000%N))) true.
Proof.
  apply (proj1 (freeze_only_when_safe true 0 3 6 2 sample_classifier (sample_runtime 0)
                  sample_cont (sample_vm (sample_thread sample_cont 1000%N)))
           true true); reflexivity.
Defined.

Lemma sample_runtime_keeps_preempting (status : Z) :
  runtime_keeps_preempting (sample_runtime status).
Proof.
  repeat split; simpl; try reflexivity.
  intros sp w. destruct (status =? 0); [|reflexivity].
  unfold sample_unmount. destruct (last_continuation (target w)); reflexivity.
Qed.

(** Two dispatches from the sample state, the transition started in
    both.  The engine that fails with status [4]: flag cleared, counter
    from 41 to 42, transition rolled back.  The engine that succeeds:
    flag left set, counter still 41, thread state rebound. *)
Lemma try_preempt_after_dispatch_witness :
  (exists vm',
     try_preempt true 0 3 6 2 sample_classifier (sample_runtime 4) sample_cont
       (sample_vm (sample_thread sample_cont 1000%N)) = Some (4, vm') /\
     preempting (target (world vm')) = false /\
     fail_counter vm' = 42 /\
     trace vm' = [Ev_start_VTMS_transition true; Ev_freeze_preempt_entry 4000%N 4;
                  Ev_finish_VTMS_transition]) /\
  (exists vm',
     try_preempt true 0 3 6 2 sample_classifier (sample_runtime 0) sample_cont
       (sample_vm (sample_thread sample_cont 1000%N)) = Some (0, vm') /\
     preempting (target (world vm')) = true /\
     fail_counter vm' = 41 /\
     trace vm' = [Ev_start_VTMS_transition true; Ev_freeze_preempt_entry 4000%N 0;
                  Ev_rebind_to_jvmti_thread_state_of]).
Proof.
  split.
  - destruct (try_preempt_after_dispatch true 0 3 6 2 sample_classifier (sample_runtime 4)
                sample_cont (sample_vm (sample_thread sample_cont 1000%N))
                (sample_entry sample_cont 0) [] sample_scope true
                (with_target
                   (set_is_in_VTMS_transition true (sample_thread sample_cont 1000%N))
                   (world (sample_vm (sample_thread sample_cont 1000%N))))
                (sample_runtime_keeps_preempting 4) eq_refl eq_refl eq_refl eq_refl eq_refl
                (transition_started true (sample_runtime 4) true
                   (world (sample_vm (sample_thread sample_cont 1000%N))) true
                   (with_target
                      (set_is_in_VTMS_transition true (sample_thread sample_cont 1000%N))
                      (world (sample_vm (sample_thread sample_cont 1000%N))))
                   eq_refl eq_refl eq_refl eq_refl))
      as (vm' & Hrun & Hfail & _).
    exists vm'. split; [exact Hrun|].
    destruct (Hfail ltac:(discriminate)) as (Hflag & Hfc & Htr & _).
    split; [exact Hflag|]. split; [exact Hfc|exact Htr].
  - destruct (try_preempt_after_dispatch true 0 3 6 2 sample_classifier (sample_runtime 0)
                sample_cont (sample_vm (sample_thread sample_cont 1000%N))
                (sample_entry sample_cont 0) [] sample_scope true
                (with_target
                   (set_is_in_VTMS_transition true (sample_thread sample_cont 1000%N))
                   (world (sample_vm (sample_thread sample_cont 1000%N))))
                (sample_runtime_keeps_preempting 0) eq_refl eq_refl eq_refl eq_refl eq_refl
                (transition_started true (sample_runtime 0) true
                   (world (sample_vm (sample_thread sample_cont 1000%N))) true
                   (with_target
                      (set_is_in_VTMS_transition true (sample_thread sample_cont 1000%N))
                      (world (sample_vm (sample_thread sample_cont 1000%N))))
                   eq_refl eq_refl eq_refl eq_refl))
      as (vm' & Hrun & _ & Hok).
    exists vm'. split; [exact Hrun|].
    destruct (Hok eq_refl) as (Hflag & Hfc & Htr & _).
    split; [exact Hflag|]. split; [exact Hfc|exact Htr].
Defined.

(** With a maximum of [4294967295] pins: an [unpin] on a fresh mount
    fails, a [pin] on a saturated entry fails, and an unmounted thread
    accepts both. *)
Lemma pin_unpin_refusals_witness :
  unpin (sample_thread sample_cont 1000%N)
    = (false, sample_thread sample_cont 1000%N) /\
  pin 4294967295
      (set_last_continuation [sample_entry sample_cont 4294967295] sample_carrier)
    = (false, set_last_continuation [sample_entry sample_cont 4294967295] sample_carrier) /\
  pin 4294967295 sample_carrier = (true, sample_carrier) /\
  unpin sample_carrier = (true, sample_carrier).
Proof.
  destruct (pin_unpin_refusals 4294967295 (sample_thread sample_cont 1000%N))
    as (Hunpin & _ & _).
  destruct (pin_unpin_refusals 4294967295
              (set_last_continuation [sample_entry sample_cont 4294967295] sample_carrier))
    as (_ & Hpin & _).
  destruct (pin_unpin_refusals 4294967295 sample_carrier) as (_ & _ & Hnone).
  split; [|split].
  - apply (Hunpin (sample_entry sample_cont 0) []); reflexivity.
  - apply (Hpin (sample_entry sample_cont 4294967295) []); reflexivity.
  - apply Hnone. reflexivity.
Defined.

(** On a chain of two entries the query finds each continuation at its
    own entry, and nothing for a continuation that is not mounted. *)
Lemma get_continuation_entry_for_continuation_witness :
  get_continuation_entry_for_continuation (Some sample_nested_thread) sample_done_cont
    = Some (sample_entry sample_done_cont 1) /\
  get_continuation_entry_for_continuation (Some sample_nested_thread) 555%N = None.
Proof.
  destruct (get_continuation_entry_for_continuation_spec
              sample_nested_thread sample_done_cont)
    as (_ & _ & Hfound & _).
  destruct (get_continuation_entry_for_continuation_spec sample_nested_thread 555%N)
    as (_ & _ & Hnone & _).
  split.
  - apply (proj1 (Hfound ltac:(discriminate))).
    exists [sample_entry sample_cont 0], [].
    split; [reflexivity|]. split; [reflexivity|].
    constructor; [discriminate|constructor].
  - apply (proj2 (Hnone ltac:(discriminate))).
    repeat constructor; discriminate.
Defined.

(** ** Runs on the sample data *)

(** Scenario C of the specification: the predicates hold, the freeze
    engine succeeds. *)
Example scenario_freeze_ok :
  exists vm',
    try_preempt true 0 3 6 2 sample_classifier (sample_runtime 0) sample_cont
      (sample_vm (sample_thread sample_cont 1000%N)) = Some (0, vm') /\
    preempting (target (world vm')) = true /\
    last_continuation (target (world vm')) = [] /\
    is_continuation_preempted (heap (world vm')) sample_cont = Some true /\
    fail_counter vm' = 41 /\
    trace vm' = [Ev_start_VTMS_transition true; Ev_freeze_preempt_entry 4000%N 0;
                 Ev_rebind_to_jvmti_thread_state_of].
Proof.
  eexists. split; [vm_compute; reflexivity|].
  repeat split; reflexivity.
Qed.

(** The same request in a build without JVMTI. *)
Example scenario_freeze_ok_without_jvmti :
  exists vm',
    try_preempt false 0 3 6 2 sample_classifier (sample_runtime 0) sample_cont
      (sample_vm (sample_thread sample_cont 1000%N)) = Some (0, vm') /\
    preempting (target (world vm')) = true /\
    trace vm' = [Ev_freeze_preempt_entry 4000%N 0].
Proof.
  eexists. split; [vm_compute; reflexivity|].
  repeat split; reflexivity.
Qed.

(** The sample pcs, one per branch of the classifier. *)
Example classifier_samples :
  is_safe_pc_to_preempt sample_classifier 10%N sample_carrier = Some true /\
  is_safe_pc_to_preempt sample_classifier 20%N sample_carrier = Some true /\
  is_safe_pc_to_preempt sample_classifier 30%N sample_carrier = Some false /\
  is_safe_pc_to_preempt sample_classifier 40%N sample_carrier = Some false /\
  is_safe_pc_to_preempt sample_classifier 1000%N sample_carrier = Some true /\
  is_safe_pc_to_preempt sample_classifier 2000%N sample_carrier = Some false /\
  is_safe_pc_to_preempt sample_classifier 3000%N sample_carrier = None.
Proof.
  repeat split; reflexivity.
Qed.

(** A pc that neither the interpreter nor the code cache contains
    leaves the whole request without a result. *)
Example request_at_unknown_pc :
  try_preempt true 0 3 6 2 sample_classifier (sample_runtime 0) sample_cont
    (sample_vm (sample_thread sample_cont 3000%N)) = None.
Proof.
  vm_compute. reflexivity.
Qed.

(** * The further theorems at the sample data *)

(** A frame at 6000 lies in the continuation entered at 7000, hence so
    does a frame at 100; a heap frame is in a continuation even for the
    thread with nothing mounted. *)
Lemma is_frame_in_continuation_below_witness :
  is_frame_in_continuation sample_deep_thread (sample_frame 100%N) = true /\
  is_frame_in_continuation sample_carrier (frame.mk 100%N true false) = true.
Proof.
  split.
  - apply (proj2 (is_frame_in_continuation_below sample_deep_thread
                    (sample_frame 6000%N) (sample_frame 100%N))).
    + reflexivity.
    + reflexivity.
    + simpl. lia.
  - apply (proj1 (is_frame_in_continuation_below sample_carrier
                    (frame.mk 100%N true false) (sample_frame 0%N))).
    reflexivity.
Defined.

Lemma entry_for_sp_is_mounted_witness :
  get_continuation_entry_for_sp sample_deep_thread 6000%N
    = Some (mkContinuationEntry 7000%N sample_done_cont 0 7000%N 43%N) /\
  is_continuation_mounted (Some sample_deep_thread) sample_done_cont = true.
Proof.
  split; [reflexivity|].
  apply (entry_for_sp_is_mounted sample_deep_thread 6000%N
           (mkContinuationEntry 7000%N sample_done_cont 0 7000%N 43%N)).
  - reflexivity.
  - discriminate.
Defined.

Lemma entry_for_sp_is_closest_witness :
  get_continuation_entry_for_sp sample_deep_thread 6000%N
    = Some (mkContinuationEntry 7000%N sample_done_cont 0 7000%N 43%N) /\
  (7000 <= 9000)%N.
Proof.
  split; [reflexivity|].
  apply (entry_for_sp_is_closest sample_deep_thread 6000%N
           (mkContinuationEntry 7000%N sample_done_cont 0 7000%N 43%N)
           (mkContinuationEntry 9000%N 102%N 0 9000%N 44%N)).
  - unfold chain_in_stack_order. simpl.
    repeat (constructor; [|repeat (constructor; [simpl; lia|]); constructor]).
    constructor.
  - reflexivity.
  - simpl. auto.
  - simpl. lia.
Defined.

(** With the return barrier at 777 and the entry pc at 42. *)
Lemma get_top_return_pc_post_barrier_resolves_witness :
  get_top_return_pc_post_barrier true 777%N
    (Some (sample_thread sample_cont 1000%N)) 777%N = 42%N /\
  is_return_barrier_entry true 777%N
    (get_top_return_pc_post_barrier true 777%N
       (Some (sample_thread sample_cont 1000%N)) 777%N) = false.
Proof.
  split; [reflexivity|].
  apply (get_top_return_pc_post_barrier_resolves true 777%N
           (sample_thread sample_cont 1000%N) (sample_entry sample_cont 0) [] 777%N);
    reflexivity.
Defined.

(** A request for continuation 555, which is not on the chain. *)
Lemma try_preempt_requires_mounted_witness :
  6 = 6 /\
  sample_vm (sample_thread sample_cont 1000%N)
    = sample_vm (sample_thread sample_cont 1000%N).
Proof.
  apply (try_preempt_requires_mounted true 0 3 6 2 sample_classifier (sample_runtime 0)
           555%N (sample_vm (sample_thread sample_cont 1000%N)));
    reflexivity.
Defined.

(** After the sample freeze succeeded, a second request is refused. *)
Lemma try_preempt_no_second_freeze_witness :
  exists vm1 vm2 r2,
    try_preempt true 0 3 6 2 sample_classifier (sample_runtime 0) sample_cont
      (sample_vm (sample_thread sample_cont 1000%N)) = Some (0, vm1) /\
    try_preempt true 0 3 6 2 sample_classifier (sample_runtime 0) sample_cont vm1
      = Some (r2, vm2) /\
    vm2 = vm1 /\ (r2 = 6 \/ r2 = 3).
Proof.
  eexists. eexists. eexists.
  split; [vm_compute; reflexivity|].
  split; [vm_compute; reflexivity|].
  eapply (fun Hkeep Hrun Htr Hin =>
            try_preempt_no_second_freeze true 0 3 6 2 sample_classifier (sample_runtime 0)
              sample_cont (sample_vm (sample_thread sample_cont 1000%N)) 0 _
              [Ev_start_VTMS_transition true; Ev_freeze_preempt_entry 4000%N 0;
               Ev_rebind_to_jvmti_thread_state_of] 4000%N Hkeep Hrun Htr Hin sample_cont).
  - apply sample_runtime_keeps_preempting.
  - vm_compute. reflexivity.
  - reflexivity.
  - simpl. auto.
  - vm_compute. reflexivity.
Defined.

Lemma try_preempt_defined_witness :
  is_Some (try_preempt true 0 3 6 2 sample_classifier (sample_runtime 0) sample_cont
             (sample_vm (sample_thread sample_cont 1000%N))).
Proof.
  apply try_preempt_defined.
  - intros ce parents _ _. eexists. reflexivity.
  - right. eexists. reflexivity.
  - eexists. reflexivity.
Defined.

(** Two attempts against an engine that fails with status [4]. *)
Lemma try_preempt_retry_invariants_witness :
  exists vm',
    try_preempt_retry true 0 3 6 2 sample_classifier (sample_runtime 4) 2 sample_cont
      (sample_vm (sample_thread sample_cont 1000%N)) = Some ([4; 4], vm') /\
    fail_counter vm' = 43 /\
    length [4; 4] = 2%nat /\
    exists evs,
      trace vm' = trace (sample_vm (sample_thread sample_cont 1000%N)) ++ evs /\
      (length (List.filter is_freeze_event evs) <= 2)%nat /\
      (0 <= fail_counter (sample_vm (sample_thread sample_cont 1000%N)) < uint64_modulus ->
       0 <= fail_counter vm' < uint64_modulus) /\
      (List.filter is_freeze_event evs = [] ->
       fail_counter vm' = fail_counter (sample_vm (sample_thread sample_cont 1000%N))).
Proof.
  eexists. split; [vm_compute; reflexivity|]. split; [reflexivity|].
  eapply (try_preempt_retry_invariants true 0 3 6 2 sample_classifier (sample_runtime 4) 2
            sample_cont (sample_vm (sample_thread sample_cont 1000%N))).
  vm_compute. reflexivity.
Defined.

(** The transition is pending elsewhere: refused before the freeze. *)
Lemma try_preempt_transition_refused_witness :
  try_preempt true 0 3 6 2 sample_classifier sample_busy_runtime sample_cont
    (sample_vm (sample_thread sample_cont 1000%N))
  = Some (3, mkVM (world (sample_vm (sample_thread sample_cont 1000%N))) 41
               [Ev_start_VTMS_transition false]).
Proof.
  apply (try_preempt_transition_refused true 0 3 6 2 sample_classifier sample_busy_runtime
           sample_cont (sample_vm (sample_thread sample_cont 1000%N))
           (sample_entry sample_cont 0) []
           (world (sample_vm (sample_thread sample_cont 1000%N))));
    solve [reflexivity | discriminate].
Defined.

(** With [notify_jvmti_events()] off the only call is the freeze. *)
Lemma try_preempt_without_transition_witness :
  exists vm',
    try_preempt true 0 3 6 2 sample_classifier (sample_runtime 0) sample_cont
      (mkVM (mkWorld (sample_thread sample_cont 1000%N) sample_heap false sample_scope)
         41 []) = Some (0, vm') /\
    (trace vm' = [] \/ trace vm' = [Ev_freeze_preempt_entry 4000%N 0]).
Proof.
  eexists. split; [vm_compute; reflexivity|].
  eapply (try_preempt_without_transition true 0 3 6 2 sample_classifier (sample_runtime 0)
            sample_cont
            (mkVM (mkWorld (sample_thread sample_cont 1000%N) sample_heap false sample_scope)
               41 []) 0).
  - vm_compute. reflexivity.
  - reflexivity.
  - right. left. reflexivity.
Defined.

(** Retrying while the target runs in an nmethod away from any poll. *)
Lemma try_preempt_retry_unsafe_witness :
  try_preempt_retry true 0 3 6 2 sample_classifier (sample_runtime 0) 3 sample_cont
    (sample_vm (sample_thread sample_cont 2000%N))
  = Some ([3; 3; 3], sample_vm (sample_thread sample_cont 2000%N)).
Proof.
  apply (try_preempt_retry_unsafe true 0 3 6 2 sample_classifier (sample_runtime 0)
           sample_cont (sample_vm (sample_thread sample_cont 2000%N))
           (sample_entry sample_cont 0) [] sample_scope);
    reflexivity.
Defined.

Lemma pin_unpin_round_trip_witness :
  pin_counts_in_range 4294967295 (snd (pin 4294967295 (sample_thread sample_cont 1000%N))) /\
  pin_counts_in_range 4294967295 (snd (unpin (sample_thread sample_cont 1000%N))) /\
  (forall t1, pin 4294967295 (sample_thread sample_cont 1000%N) = (true, t1) ->
              unpin t1 = (true, sample_thread sample_cont 1000%N)) /\
  (forall t1, unpin (sample_thread sample_cont 1000%N) = (true, t1) ->
              pin 4294967295 t1 = (true, sample_thread sample_cont 1000%N)).
Proof.
  apply pin_unpin_round_trip.
  unfold pin_counts_in_range. simpl. repeat constructor; simpl; lia.
Defined.

(** ** Deoptimization notices on the sample chain *)

(** A frame at 6000 is deoptimized: it lies in the continuation
    entered at 7000, so the innermost entry (at 5000) records it. *)
Example notify_deopt_sample :
  notify_deopt sample_fastpath_chain 6000%N
  = ([mkFastpathEntry (mkContinuationEntry 5000%N sample_cont 0 5000%N 42%N) 6000%N;
      mkFastpathEntry (mkContinuationEntry 7000%N sample_done_cont 0 7000%N 43%N) 0%N;
      mkFastpathEntry (mkContinuationEntry 9000%N 102%N 0 9000%N 44%N) 0%N], None) /\
  notify_deopt sample_fastpath_chain 4000%N = (sample_fastpath_chain, Some 4000%N) /\
  notify_deopt sample_fastpath_chain 9500%N = (sample_fastpath_chain, None).
Proof.
  repeat split; reflexivity.
Qed.

(** The sample request that fails with status [4] makes the calls of
    the fourth sequence. *)
Lemma try_preempt_call_sequences_witness :
  exists vm',
    try_preempt true 0 3 6 2 sample_classifier (sample_runtime 4) sample_cont
      (sample_vm (sample_thread sample_cont 1000%N)) = Some (4, vm') /\
    exists evs,
      trace vm' = trace (sample_vm (sample_thread sample_cont 1000%N)) ++ evs /\
      (evs = [] \/
       evs = [Ev_start_VTMS_transition false] \/
       (exists sp, evs = [Ev_freeze_preempt_entry sp 4]) \/
       (exists sp, 4 <> 0 /\
                   evs = [Ev_start_VTMS_transition true; Ev_freeze_preempt_entry sp 4;
                          Ev_finish_VTMS_transition]) \/
       (exists sp, 4 = 0 /\
                   evs = [Ev_start_VTMS_transition true; Ev_freeze_preempt_entry sp 4;
                          Ev_rebind_to_jvmti_thread_state_of])).
Proof.
  eexists. split; [vm_compute; reflexivity|].
  eapply (try_preempt_call_sequences true 0 3 6 2 sample_classifier (sample_runtime 4)
            sample_cont (sample_vm (sample_thread sample_cont 1000%N)) 4).
  - discriminate.
  - vm_compute. reflexivity.
Defined.
